(** * NexCraft.AI: the generation-request lifecycle of the dashboard

    A shallow embedding of [src/components/Dashboard.tsx] (the component
    state, [INITIAL_MESSAGE] and [handleSubmit]) and of the video path of
    the Gemini service module ([ensureApiKey], [createAI],
    [generateCinematicVideo]), followed by the properties of the
    specification that concern them. *)

From Stdlib Require Import ZArith NArith List Bool String Ascii Lia.
From Stdlib Require Import DecimalString Sorted.
Import ListNotations.

Local Open Scope Z_scope.

(* ================================================================== *)
(** ** JavaScript strings and numbers *)
(* ================================================================== *)

Module Js.

(** A JavaScript string is a sequence of UTF-16 code units. *)
Definition CodeUnit : Type := N.
Definition str : Type := list CodeUnit.

(** String literals of the source, written with ASCII characters. *)
Definition lit (s : string) : str :=
  map N_of_ascii (list_ascii_of_string s).

(** Characters that cannot be written inside a literal here. *)
Definition LF : str := [10%N].
Definition DQUOTE : str := [34%N].

Fixpoint eqb (a b : str) : bool :=
  match a, b with
  | [], [] => true
  | x :: a', y :: b' => N.eqb x y && eqb a' b'
  | _, _ => false
  end.

(** [WhiteSpace] and [LineTerminator] of ECMAScript, the code points that
    [String.prototype.trim] strips: TAB, VT, FF, SP, NBSP, ZWNBSP, the
    Unicode space separators, LF, CR, LS and PS. *)
Definition isWhiteSpace (c : CodeUnit) : bool :=
  (N.eqb c 9 || N.eqb c 10 || N.eqb c 11 || N.eqb c 12 || N.eqb c 13
   || N.eqb c 32 || N.eqb c 160 || N.eqb c 5760
   || (N.leb 8192 c && N.leb c 8202)
   || N.eqb c 8232 || N.eqb c 8233 || N.eqb c 8239 || N.eqb c 8287
   || N.eqb c 12288 || N.eqb c 65279)%N.

Fixpoint trimStart (s : str) : str :=
  match s with
  | [] => []
  | c :: s' => if isWhiteSpace c then trimStart s' else s
  end.

Definition trimEnd (s : str) : str := rev (trimStart (rev s)).

Definition trim (s : str) : str := trimEnd (trimStart s).

(** Truthiness of a string ([!s] is its negation) and of a nullable
    string or object. *)
Definition truthy (s : str) : bool :=
  match s with [] => false | _ :: _ => true end.

Definition truthy_opt (o : option str) : bool :=
  match o with Some s => truthy s | None => false end.

Definition is_object {A : Type} (o : option A) : bool :=
  match o with Some _ => true | None => false end.

(** [Number.prototype.toString] on the integers [Date.now()] yields. *)
Definition Number_toString (z : Z) : str :=
  lit (NilZero.string_of_int (Z.to_int z)).

(** A thrown value or the reason of a rejected promise. *)
Inductive Error : Type :=
| JsError (message : str).

(** How an awaited promise, or a call that may throw, settles. *)
Inductive Settled (R : Type) : Type :=
| Resolved (value : R)
| Rejected (reason : Error).

Arguments Resolved {R} value.
Arguments Rejected {R} reason.

End Js.

Import Js.

(* ================================================================== *)
(** ** Asynchronous programs *)
(* ================================================================== *)

(** The body of an [async] function: it returns, throws, performs a
    synchronous effect of signature [E], or suspends at an [await] of a
    call of signature [C] until the environment settles it. *)
Section Programs.

Context {E C : Type -> Type}.

Inductive Prog (A : Type) : Type :=
| Ret (a : A)
| Throw (e : Error)
| Act {R : Type} (ev : E R) (k : R -> Prog A)
| Wait {R : Type} (c : C R) (k : Settled R -> Prog A).

Arguments Ret {A} a.
Arguments Throw {A} e.
Arguments Act {A R} ev k.
Arguments Wait {A R} c k.

Fixpoint bind {A B : Type} (p : Prog A) (f : A -> Prog B) : Prog B :=
  match p with
  | Ret a => f a
  | Throw e => Throw e
  | Act ev k => Act ev (fun r => bind (k r) f)
  | Wait c k => Wait c (fun r => bind (k r) f)
  end.

Definition act {R : Type} (ev : E R) : Prog R := Act ev Ret.

(** [await call]: the value of a resolved promise; a rejection is thrown
    at the [await]. *)
Definition await {R : Type} (c : C R) : Prog R :=
  Wait c (fun s =>
    match s with
    | Resolved v => Ret v
    | Rejected e => Throw e
    end).

(** [try { p } catch (e) { h e }] *)
Fixpoint try_catch {A : Type} (p : Prog A) (h : Error -> Prog A) : Prog A :=
  match p with
  | Ret a => Ret a
  | Throw e => h e
  | Act ev k => Act ev (fun r => try_catch (k r) h)
  | Wait c k => Wait c (fun r => try_catch (k r) h)
  end.

(** [try { p } finally { f }]: [f] runs on both exits and the outcome of
    [p] is kept, unless [f] itself throws. *)
Fixpoint try_finally {A : Type} (p : Prog A) (f : Prog unit) : Prog A :=
  match p with
  | Ret a => bind f (fun _ => Ret a)
  | Throw e => bind f (fun _ => Throw e)
  | Act ev k => Act ev (fun r => try_finally (k r) f)
  | Wait c k => Wait c (fun r => try_finally (k r) f)
  end.

End Programs.

Arguments Prog : clear implicits.
Arguments Ret {E C A} a.
Arguments Throw {E C A} e.
Arguments Act {E C A R} ev k.
Arguments Wait {E C A R} c k.

Declare Scope prog_scope.
Delimit Scope prog_scope with prog.
Notation "x <- p ;; q" := (bind p (fun x => q))
  (at level 61, p at next level, right associativity) : prog_scope.
Notation "p ;; q" := (bind p (fun _ => q))
  (at level 61, right associativity) : prog_scope.

(* ================================================================== *)
(** ** The data model ([../types]) *)
(* ================================================================== *)

Module Types.

(** The declarations of [../types] ([Role], [ContentType],
    [GenerationMode], [MediaAttachment], [Message] and its metadata bag,
    [ProjectContext]), which follow the component in
    [src/components/Dashboard.tsx]; an optional field is an [option].
    The optional [name] of a [MediaAttachment], which no code reads or
    writes, is left out. *)
Inductive Role : Type := USER | ASSISTANT.

Inductive ContentType : Type := TEXT | IMAGE | VIDEO | RESEARCH.

Module GenerationMode.
Inductive t : Type := COPYWRITING | RESEARCH | VISUAL | VIDEO.
End GenerationMode.

Record Source : Type := { uri : str; title : str }.

Record MediaAttachment : Type := { mimeType : str; data : str }.

(** Every field of the bag is optional. *)
Record Metadata : Type := {
  imageUrl : option str;
  videoUrl : option str;
  sources : option (list Source);
  thinking : option bool
}.

Record Message : Type := {
  id : str;
  role : Role;
  content : str;
  type : ContentType;
  attachments : option (list MediaAttachment);
  metadata : option Metadata;
  timestamp : Z
}.

Record ProjectContext : Type := {
  brandName : str;
  industry : str;
  tone : str
}.

(** Assignments to one field of a message under construction. *)
Definition set_content (m : Message) (c : str) : Message :=
  {| id := id m; role := role m; content := c; type := type m;
     attachments := attachments m; metadata := metadata m;
     timestamp := timestamp m |}.

Definition set_type (m : Message) (ty : ContentType) : Message :=
  {| id := id m; role := role m; content := content m; type := ty;
     attachments := attachments m; metadata := metadata m;
     timestamp := timestamp m |}.

Definition set_metadata (m : Message) (md : Metadata) : Message :=
  {| id := id m; role := role m; content := content m; type := type m;
     attachments := attachments m; metadata := Some md;
     timestamp := timestamp m |}.

End Types.

Import Types.

(* ================================================================== *)
(** ** [components/Dashboard.tsx] *)
(* ================================================================== *)

Module Dashboard.

(** The pending attachment held in the [file] state. *)
Record File : Type := { name : str; fdata : str; mime : str }.

(** What the capabilities of the service module resolve to. *)
Record StrategyResult : Type := { strategy_text : str }.
Record ResearchResult : Type := {
  research_text : str;
  research_sources : list Source
}.

(** The four calls [handleSubmit] awaits, with their arguments. *)
Inductive Capability : Type -> Type :=
| generateStrategy (prompt contextData : str)
    (atts : list MediaAttachment) : Capability StrategyResult
| conductResearch (query : str) : Capability ResearchResult
| generateProfessionalImage (prompt : str)
    (refImage : option str) : Capability (option str)
| generateCinematicVideo (prompt : str) : Capability (option str).

(** The state of the component ([useState] and [useRef] cells), the
    console, and the number of [Date.now()] readings taken so far. *)
Record World : Type := {
  messages : list Message;
  input : str;
  isLoading : bool;
  mode : GenerationMode.t;
  file : option File;
  context : ProjectContext;
  fileInputValue : option str;
  console : list Error;
  ticks : nat
}.

(** The synchronous effects of the component. *)
Inductive Effect : Type -> Type :=
| Render : Effect World
| DateNow : Effect Z
| setMessages (f : list Message -> list Message) : Effect unit
| setInput (s : str) : Effect unit
| setIsLoading (b : bool) : Effect unit
| setMode (m : GenerationMode.t) : Effect unit
| setFile (f : option File) : Effect unit
| setContext (c : ProjectContext) : Effect unit
| clearFileInput : Effect unit
| console_error (e : Error) : Effect unit.

Definition with_messages (w : World) (ms : list Message) : World :=
  {| messages := ms; input := input w; isLoading := isLoading w;
     mode := mode w; file := file w; context := context w;
     fileInputValue := fileInputValue w; console := console w;
     ticks := ticks w |}.

Definition with_input (w : World) (s : str) : World :=
  {| messages := messages w; input := s; isLoading := isLoading w;
     mode := mode w; file := file w; context := context w;
     fileInputValue := fileInputValue w; console := console w;
     ticks := ticks w |}.

Definition with_isLoading (w : World) (b : bool) : World :=
  {| messages := messages w; input := input w; isLoading := b;
     mode := mode w; file := file w; context := context w;
     fileInputValue := fileInputValue w; console := console w;
     ticks := ticks w |}.

Definition with_mode (w : World) (m : GenerationMode.t) : World :=
  {| messages := messages w; input := input w; isLoading := isLoading w;
     mode := m; file := file w; context := context w;
     fileInputValue := fileInputValue w; console := console w;
     ticks := ticks w |}.

Definition with_file (w : World) (f : option File) : World :=
  {| messages := messages w; input := input w; isLoading := isLoading w;
     mode := mode w; file := f; context := context w;
     fileInputValue := fileInputValue w; console := console w;
     ticks := ticks w |}.

Definition with_context (w : World) (c : ProjectContext) : World :=
  {| messages := messages w; input := input w; isLoading := isLoading w;
     mode := mode w; file := file w; context := c;
     fileInputValue := fileInputValue w; console := console w;
     ticks := ticks w |}.

Definition with_fileInputValue (w : World) (v : option str) : World :=
  {| messages := messages w; input := input w; isLoading := isLoading w;
     mode := mode w; file := file w; context := context w;
     fileInputValue := v; console := console w; ticks := ticks w |}.

Definition with_console (w : World) (l : list Error) : World :=
  {| messages := messages w; input := input w; isLoading := isLoading w;
     mode := mode w; file := file w; context := context w;
     fileInputValue := fileInputValue w; console := l; ticks := ticks w |}.

Definition tick (w : World) : World :=
  {| messages := messages w; input := input w; isLoading := isLoading w;
     mode := mode w; file := file w; context := context w;
     fileInputValue := fileInputValue w; console := console w;
     ticks := S (ticks w) |}.

Definition welcome_text : str :=
  lit "# OmniCreative Studio" ++ LF ++ LF
  ++ lit "Welcome. I am your AI Creative Director. I can assist you with:"
  ++ LF ++ LF
  ++ lit "*   **Strategic Copywriting** (Ads, PR, Social)" ++ LF
  ++ lit "*   **Market Research** (Competitor analysis, Trends)" ++ LF
  ++ lit "*   **Visuals** (High-end Image Generation)" ++ LF
  ++ lit "*   **Cinematics** (Veo Video Production)" ++ LF ++ LF
  ++ lit "What is our project focus today?".

(** [INITIAL_MESSAGE]; its timestamp is the reading of [Date.now()] taken
    when the module is loaded. *)
Definition INITIAL_MESSAGE (loaded : Z) : Message :=
  {| id := lit "welcome";
     role := ASSISTANT;
     content := welcome_text;
     type := TEXT;
     attachments := None;
     metadata := None;
     timestamp := loaded |}.

Definition temp_video : str := lit "temp-video".

Definition placeholder (now : Z) : Message :=
  {| id := temp_video;
     role := ASSISTANT;
     content := lit "Producing cinematic video... This may take a minute.";
     type := TEXT;
     attachments := None;
     metadata := Some {| imageUrl := None; videoUrl := None;
                         sources := None; thinking := Some true |};
     timestamp := now |}.

Definition error_text : str :=
  lit "An error occurred while processing your request. Please check your API configuration.".

Definition image_failed_text : str :=
  lit "Failed to generate image. Please try again.".

Definition video_failed_text : str :=
  lit "Video generation failed or was cancelled.".

Definition contextString (c : ProjectContext) : str :=
  lit "Brand: " ++ brandName c ++ lit ", Industry: " ++ industry c
  ++ lit ", Tone: " ++ tone c.

(** The guard of the first line of [handleSubmit]. *)
Definition rejected (v : World) : bool :=
  (negb (truthy (trim (input v))) && negb (is_object (file v)))
  || isLoading v.

Local Open Scope prog_scope.

(** [handleSubmit].  [Render] gives the values the handler closes over
    ([input], [file], [isLoading], [mode], [context] of the render that
    created it).  A state updater that reads the clock takes its reading
    where the update is issued. *)
Definition handleSubmit : Prog Effect Capability unit :=
  v <- act Render ;;
  if rejected v then Ret tt else
  t_id <- act DateNow ;;
  t_ts <- act DateNow ;;
  let userMsg :=
    {| id := Number_toString t_id;
       role := USER;
       content := input v ++
         match file v with
         | Some f => LF ++ lit "[Attached: " ++ name f ++ lit "]"
         | None => []
         end;
       type := TEXT;
       attachments := None;
       metadata := None;
       timestamp := t_ts |} in
  act (setMessages (fun prev => prev ++ [userMsg])) ;;
  act (setInput []) ;;
  let currentFile := file v in
  act (setFile None) ;;
  act clearFileInput ;;
  act (setIsLoading true) ;;
  try_finally
    (try_catch
       (r_id <- act DateNow ;;
        r_ts <- act DateNow ;;
        let resultMessage :=
          {| id := Number_toString (r_id + 1);
             role := ASSISTANT;
             content := [];
             type := TEXT;
             attachments := None;
             metadata := None;
             timestamp := r_ts |} in
        let contextString := contextString (context v) in
        resultMessage <-
          match mode v with
          | GenerationMode.COPYWRITING =>
              strategyRes <- await (generateStrategy (input v) contextString
                match currentFile with
                | Some f => [ {| mimeType := mime f; data := fdata f |} ]
                | None => []
                end) ;;
              Ret (set_content resultMessage (strategy_text strategyRes))
          | GenerationMode.RESEARCH =>
              researchRes <- await (conductResearch (input v)) ;;
              let resultMessage :=
                set_content resultMessage (research_text researchRes) in
              let resultMessage := set_type resultMessage RESEARCH in
              Ret (set_metadata resultMessage
                     {| imageUrl := None; videoUrl := None;
                        sources := Some (research_sources researchRes);
                        thinking := None |})
          | GenerationMode.VISUAL =>
              imageBase64 <- await (generateProfessionalImage (input v)
                (option_map fdata currentFile)) ;;
              if truthy_opt imageBase64 then
                let resultMessage := set_type resultMessage IMAGE in
                let resultMessage := set_content resultMessage
                  (lit "Generated concept based on: " ++ DQUOTE
                   ++ input v ++ DQUOTE) in
                Ret (set_metadata resultMessage
                       {| imageUrl := imageBase64; videoUrl := None;
                          sources := None; thinking := None |})
              else Ret (set_content resultMessage image_failed_text)
          | GenerationMode.VIDEO =>
              p_ts <- act DateNow ;;
              act (setMessages (fun prev => prev ++ [placeholder p_ts])) ;;
              videoUrl <- await (generateCinematicVideo (input v)) ;;
              act (setMessages
                     (filter (fun m => negb (Js.eqb (id m) temp_video)))) ;;
              if truthy_opt videoUrl then
                let resultMessage := set_type resultMessage VIDEO in
                let resultMessage := set_content resultMessage
                  (lit "Render complete for scene: " ++ DQUOTE
                   ++ input v ++ DQUOTE) in
                Ret (set_metadata resultMessage
                       {| imageUrl := None; videoUrl := videoUrl;
                          sources := None; thinking := None |})
              else Ret (set_content resultMessage video_failed_text)
          end ;;
        act (setMessages (fun prev => prev ++ [resultMessage])))
       (fun error =>
          act (console_error error) ;;
          e_id <- act DateNow ;;
          e_ts <- act DateNow ;;
          act (setMessages (fun prev => prev ++
            [ {| id := Number_toString e_id;
                 role := ASSISTANT;
                 content := error_text;
                 type := TEXT;
                 attachments := None;
                 metadata := None;
                 timestamp := e_ts |} ]))))
    (act (setIsLoading false)).

(** *** Running a program against the component state *)

Section Run.

(** The clock: [clk n] is what the [n]-th call of [Date.now()] returns. *)
Variable clk : nat -> Z.

Definition perform {R : Type} (ev : Effect R) (w : World) : R * World :=
  match ev in Effect R return R * World with
  | Render => (w, w)
  | DateNow => (clk (ticks w), tick w)
  | setMessages f => (tt, with_messages w (f (messages w)))
  | setInput s => (tt, with_input w s)
  | setIsLoading b => (tt, with_isLoading w b)
  | setMode m => (tt, with_mode w m)
  | setFile f => (tt, with_file w f)
  | setContext c => (tt, with_context w c)
  | clearFileInput =>
      (tt, with_fileInputValue w
             (match fileInputValue w with
              | Some _ => Some []
              | None => None
              end))
  | console_error e => (tt, with_console w (console w ++ [e]))
  end.

(** Where a run stops: the function has returned or thrown, or it is
    suspended at an [await] with the rest of its body as continuation. *)
Inductive Status (A : Type) : Type :=
| Returned (a : A) (w : World)
| Thrown (e : Error) (w : World)
| Suspended {R : Type} (c : Capability R)
    (k : Settled R -> Prog Effect Capability A) (w : World).

Arguments Returned {A} a w.
Arguments Thrown {A} e w.
Arguments Suspended {A R} c k w.

Fixpoint run {A : Type} (p : Prog Effect Capability A) (w : World)
  : Status A :=
  match p with
  | Ret a => Returned a w
  | Throw e => Thrown e w
  | Act ev k => let (r, w') := perform ev w in run (k r) w'
  | Wait c k => Suspended c k w
  end.

(** The world a run has reached. *)
Definition world_of {A : Type} (s : Status A) : World :=
  match s with
  | Returned _ w | Thrown _ w | Suspended _ _ w => w
  end.

(** *** The component over time *)

(** What happens on the page besides a submission: the handlers of the
    textarea, the mode buttons, the context fields, the file reader and
    the remove-attachment button, each a single state setter. *)
Inductive UiEvent : Type :=
| onChange_input (value : str)
| onClick_mode (m : GenerationMode.t)
| onChange_context (c : ProjectContext)
| onloadend_file (f : File)
| onClick_removeFile.

Definition ui (ev : UiEvent) (w : World) : World :=
  match ev with
  | onChange_input value => snd (perform (setInput value) w)
  | onClick_mode m => snd (perform (setMode m) w)
  | onChange_context c => snd (perform (setContext c) w)
  | onloadend_file f => snd (perform (setFile (Some f)) w)
  | onClick_removeFile => snd (perform (setFile None) w)
  end.

(** A call of [handleSubmit] suspended at its [await]. *)
Inductive Pending : Type :=
| pending {R : Type} (c : Capability R)
    (k : Settled R -> Prog Effect Capability unit).

(** The page: the component state and the calls in flight. *)
Record Page : Type := { world : World; inflight : list Pending }.

Definition absorb (others : list Pending) (s : Status unit) : Page :=
  match s with
  | Returned _ w | Thrown _ w => {| world := w; inflight := others |}
  | Suspended c k w =>
      {| world := w; inflight := others ++ [pending c k] |}
  end.

(** The state after mount: [useState] initial values; the welcome
    message carries the first clock reading. *)
Definition mounted : Page :=
  {| world :=
       {| messages := [INITIAL_MESSAGE (clk 0)];
          input := [];
          isLoading := false;
          mode := GenerationMode.COPYWRITING;
          file := None;
          context := {| brandName := lit "LuxNova";
                        industry := lit "Tech / Lifestyle";
                        tone := lit "Futuristic, Premium, Minimalist" |};
          fileInputValue := Some [];
          console := [];
          ticks := 1 |};
     inflight := [] |}.

(** One step of the page: a UI event, a call of [handleSubmit] (send
    button or Enter), or the settlement of a call in flight, with any
    outcome. *)
Inductive step : Page -> Page -> Prop :=
| step_ui (s : Page) (ev : UiEvent) :
    step s {| world := ui ev (world s); inflight := inflight s |}
| step_submit (s : Page) :
    step s (absorb (inflight s) (run handleSubmit (world s)))
| step_settle (s : Page) (before after : list Pending) {R : Type}
    (c : Capability R) (k : Settled R -> Prog Effect Capability unit)
    (outcome : Settled R) :
    inflight s = before ++ pending c k :: after ->
    step s (absorb (before ++ after) (run (k outcome) (world s))).

Inductive reachable : Page -> Prop :=
| reach_mounted : reachable mounted
| reach_step (s s' : Page) : reachable s -> step s s' -> reachable s'.

(** The three kinds of step as functions, to compute pages; the oldest
    call in flight is the one settled. *)
Definition page_ui (ev : UiEvent) (s : Page) : Page :=
  {| world := ui ev (world s); inflight := inflight s |}.

Definition page_submit (s : Page) : Page :=
  absorb (inflight s) (run handleSubmit (world s)).

Definition page_settle (answer : forall R, Capability R -> Settled R)
  (s : Page) : Page :=
  match inflight s with
  | [] => s
  | pending c k :: rest => absorb rest (run (k (answer _ c)) (world s))
  end.

End Run.

Arguments Returned {A} a w.
Arguments Thrown {A} e w.
Arguments Suspended {A R} c k w.
Arguments pending {R} c k.

End Dashboard.

(* ================================================================== *)
(** ** The video path of the service module *)
(* ================================================================== *)

Module geminiService.

(** The long-running operation of the SDK, as far as the source reads
    it: [operation.done] and
    [operation.response?.generatedVideos?.[0]?.video?.uri]. *)
Record Video : Type := { uri : option str }.
Record GeneratedVideo : Type := { video : option Video }.
Record GenerateVideosResponse : Type := {
  generatedVideos : option (list GeneratedVideo)
}.
Record Operation : Type := {
  done : bool;
  response : option GenerateVideosResponse
}.

Inductive GoogleGenAI : Type := ai_with_key (apiKey : option str).
Inductive Response : Type := http_response (body : str).
Inductive Blob : Type := blob_of (bytes : str).

(** Synchronous operations; those that may throw return how they
    settled. *)
Inductive Effect : Type -> Type :=
| window_aistudio : Effect bool
| process_env_API_KEY : Effect (option str)
| new_GoogleGenAI (apiKey : option str) : Effect (Settled GoogleGenAI)
| URL_createObjectURL (b : Blob) : Effect (Settled str)
| console_error (msg : str) (e : Error) : Effect unit.

(** Awaited calls. *)
Inductive Call : Type -> Type :=
| hasSelectedApiKey : Call bool
| openSelectKey : Call unit
| generateVideos (ai : GoogleGenAI) (prompt : str) : Call Operation
| setTimeout (ms : Z) : Call unit
| getVideosOperation (ai : GoogleGenAI) (operation : Operation)
    : Call Operation
| fetch (url : str) : Call Response
| blob (r : Response) : Call Blob.

Definition Async (A : Type) : Type := Prog Effect Call A.

Local Open Scope prog_scope.

Definition sync {R : Type} (ev : Effect (Settled R)) : Async R :=
  Act ev (fun s =>
    match s with
    | Resolved v => Ret v
    | Rejected e => Throw e
    end).

(** [ensureApiKey] *)
Definition ensureApiKey : Async unit :=
  present <- act window_aistudio ;;
  if (present : bool) then
    hasKey <- await hasSelectedApiKey ;;
    if negb hasKey then await openSelectKey else Ret tt
  else Ret tt.

(** [createAI] *)
Definition createAI : Async GoogleGenAI :=
  key <- act process_env_API_KEY ;;
  sync (new_GoogleGenAI key).

(** The poll loop [while (!operation.done) ...], run for at most [fuel]
    rounds; [None] when the operation is still not done after them. *)
Fixpoint poll (fuel : nat) (ai : GoogleGenAI) (operation : Operation)
  : Async (option Operation) :=
  if done operation then Ret (Some operation) else
  match fuel with
  | O => Ret None
  | S fuel' =>
      await (setTimeout 5000) ;;
      operation <- await (getVideosOperation ai operation) ;;
      poll fuel' ai operation
  end.

Definition videoUri_of (operation : Operation) : option str :=
  match response operation with
  | None => None
  | Some r =>
      match generatedVideos r with
      | Some (g :: _) =>
          match video g with
          | Some v => uri v
          | None => None
          end
      | _ => None
      end
  end.

(** A template literal renders [undefined] by its name. *)
Definition String_of (o : option str) : str :=
  match o with Some s => s | None => lit "undefined" end.

(** What a call has come to after the rounds it was given. *)
Inductive Progress (A : Type) : Type :=
| Settles (a : A)
| StillPolling.

Arguments Settles {A} a.
Arguments StillPolling {A}.

(** The body of the [try] block of [generateCinematicVideo]: start the
    operation, poll it, fetch the bytes of the video. *)
Definition render_video (fuel : nat) (ai : GoogleGenAI) (prompt : str)
  : Async (Progress (option str)) :=
  operation <- await (generateVideos ai
    (lit "Cinematic shot, movie quality, high production value. "
     ++ prompt)) ;;
  polled <- poll fuel ai operation ;;
  match polled with
  | None => Ret StillPolling
  | Some operation =>
      let videoUri := videoUri_of operation in
      if negb (truthy_opt videoUri) then Ret (Settles None) else
      key <- act process_env_API_KEY ;;
      videoRes <- await (fetch
        (String_of videoUri ++ lit "&key=" ++ String_of key)) ;;
      b <- await (blob videoRes) ;;
      url <- sync (URL_createObjectURL b) ;;
      Ret (Settles (Some url))
  end.

(** Its [catch] block. *)
Definition video_failed (e : Error) : Async (Progress (option str)) :=
  act (console_error (lit "Video generation failed") e) ;;
  Ret (Settles None).

(** [generateCinematicVideo] *)
Definition generateCinematicVideo (fuel : nat) (prompt : str)
  : Async (Progress (option str)) :=
  ensureApiKey ;;
  ai <- createAI ;;
  try_catch (render_video fuel ai prompt) video_failed.

(** *** The environment of a call *)

(** What the page and the network answer: whether [window.aistudio]
    offers the key dialog, the API key, and how each operation settles;
    [polled i] answers the [i]-th status request. *)
Record Env : Type := {
  aistudio : bool;
  API_KEY : option str;
  hasKey : Settled bool;
  selectKey : Settled unit;
  constructed : Settled unit;
  started : str -> Settled Operation;
  polled : nat -> Settled Operation;
  fetched : str -> Settled Response;
  blobbed : Response -> Settled Blob;
  objectURL : Blob -> Settled str
}.

Section Exec.

Variable env : Env.

Definition perform {R : Type} (ev : Effect R) : R :=
  match ev in Effect R return R with
  | window_aistudio => aistudio env
  | process_env_API_KEY => API_KEY env
  | new_GoogleGenAI key =>
      match constructed env with
      | Resolved _ => Resolved (ai_with_key key)
      | Rejected e => Rejected e
      end
  | URL_createObjectURL b => objectURL env b
  | console_error _ _ => tt
  end.

(** The answer to an awaited call, given the number of status requests
    answered so far. *)
Definition answer {R : Type} (c : Call R) (polls : nat)
  : Settled R * nat :=
  match c in Call R return Settled R * nat with
  | hasSelectedApiKey => (hasKey env, polls)
  | openSelectKey => (selectKey env, polls)
  | generateVideos _ prompt => (started env prompt, polls)
  | setTimeout _ => (Resolved tt, polls)
  | getVideosOperation _ _ => (polled env polls, S polls)
  | fetch url => (fetched env url, polls)
  | blob r => (blobbed env r, polls)
  end.

(** Runs a call to its settlement in the environment. *)
Fixpoint exec {A : Type} (p : Async A) (polls : nat) : Settled A :=
  match p with
  | Ret a => Resolved a
  | Throw e => Rejected e
  | Act ev k => exec (k (perform ev)) polls
  | Wait c k => let (r, polls') := answer c polls in exec (k r) polls'
  end.

End Exec.

End geminiService.

Import Dashboard.

(* ================================================================== *)
(** ** Vocabulary of the properties *)
(* ================================================================== *)

(** The raw input is empty or consists of white space only. *)
Definition blank (s : str) : Prop :=
  Forall (fun c => isWhiteSpace c = true) s.

(** The predicate of the filter that removes the placeholder. *)
Definition not_temp (m : Message) : bool :=
  negb (Js.eqb (id m) temp_video).

(** A placeholder is a message flagged [thinking]. *)
Definition is_placeholder (m : Message) : bool :=
  match metadata m with
  | Some md => match thinking md with Some true => true | _ => false end
  | None => false
  end.

Definition by_user (m : Message) : bool :=
  match role m with USER => true | ASSISTANT => false end.

Definition by_assistant (m : Message) : bool :=
  match role m with USER => false | ASSISTANT => true end.

(** A terminal assistant-turn message: by the assistant, no placeholder. *)
Definition terminal (m : Message) : bool :=
  by_assistant m && negb (is_placeholder m).

(** The fixed-text failure message of the catch block. *)
Definition is_fault_message (m : Message) : bool :=
  by_assistant m
  && match type m with TEXT => true | _ => false end
  && Js.eqb (content m) error_text.

(** Which of the three media fields of the bag are populated. *)
Definition has_imageUrl (m : Message) : bool :=
  match metadata m with Some md => is_object (imageUrl md) | None => false end.

Definition has_videoUrl (m : Message) : bool :=
  match metadata m with Some md => is_object (videoUrl md) | None => false end.

Definition has_sources (m : Message) : bool :=
  match metadata m with Some md => is_object (sources md) | None => false end.

Definition populated (m : Message) : nat :=
  ((if has_imageUrl m then 1 else 0) + (if has_videoUrl m then 1 else 0)
   + (if has_sources m then 1 else 0))%nat.

(** The invariant of section 3 on one message. *)
Definition metadata_invariant (m : Message) : Prop :=
  (populated m <= 1)%nat
  /\ (has_imageUrl m = true <-> type m = IMAGE)
  /\ (has_videoUrl m = true <-> type m = VIDEO)
  /\ (has_sources m = true <-> type m = RESEARCH)
  /\ (type m = TEXT ->
      has_imageUrl m = false /\ has_videoUrl m = false
      /\ has_sources m = false).

(** Some string occurs twice in the list. *)
Fixpoint has_duplicate (l : list str) : bool :=
  match l with
  | [] => false
  | x :: l' => existsb (Js.eqb x) l' || has_duplicate l'
  end.

Definition timestamps (ms : list Message) : list Z := map timestamp ms.

Definition ids (ms : list Message) : list str := map id ms.

Definition is_video (m : GenerationMode.t) : bool :=
  match m with GenerationMode.VIDEO => true | _ => false end.

Section Outcomes.

Variable clk : nat -> Z.

(** The user-turn message of a submission accepted in world [w]. *)
Definition user_message (w : World) : Message :=
  {| id := Number_toString (clk (ticks w));
     role := USER;
     content := input w ++
       match file w with
       | Some f => LF ++ lit "[Attached: " ++ name f ++ lit "]"
       | None => []
       end;
     type := TEXT;
     attachments := None;
     metadata := None;
     timestamp := clk (S (ticks w)) |}.

(** The result message as the try block first builds it, from the
    third and fourth clock readings of the submission. *)
Definition result_base (w : World) : Message :=
  {| id := Number_toString (clk (2 + ticks w) + 1);
     role := ASSISTANT;
     content := [];
     type := TEXT;
     attachments := None;
     metadata := None;
     timestamp := clk (3 + ticks w) |}.

(** The world in which the submission accepted in [w] awaits its
    capability. *)
Definition dispatched (w : World) : World :=
  {| messages :=
       (let sent := messages w ++ [user_message w] in
        if is_video (mode w)
        then sent ++ [placeholder (clk (4 + ticks w))]
        else sent);
     input := [];
     isLoading := true;
     mode := mode w;
     file := None;
     context := context w;
     fileInputValue :=
       match fileInputValue w with Some _ => Some [] | None => None end;
     console := console w;
     ticks := ((if is_video (mode w) then 5 else 4) + ticks w)%nat |}.

(** The message of the catch block, appended in world [w]. *)
Definition error_message (w : World) : Message :=
  {| id := Number_toString (clk (ticks w));
     role := ASSISTANT;
     content := error_text;
     type := TEXT;
     attachments := None;
     metadata := None;
     timestamp := clk (S (ticks w)) |}.

(** The world after the catch and finally blocks ran in [w]. *)
Definition faulted (w : World) (e : Error) : World :=
  {| messages := messages w ++ [error_message w];
     input := input w;
     isLoading := false;
     mode := mode w;
     file := file w;
     context := context w;
     fileInputValue := fileInputValue w;
     console := console w ++ [e];
     ticks := (2 + ticks w)%nat |}.

(** The world after the try block completed in [w] with result message
    [m]; in VIDEO mode the placeholder filter ran first. *)
Definition finished (w : World) (video : bool) (m : Message) : World :=
  {| messages :=
       (if video then filter not_temp (messages w) else messages w) ++ [m];
     input := input w;
     isLoading := false;
     mode := mode w;
     file := file w;
     context := context w;
     fileInputValue := fileInputValue w;
     console := console w;
     ticks := ticks w |}.

(** What the continuation of a suspended submission does when its call
    settles: on a rejection the catch path, on a result the append of a
    message satisfying [Q]. *)
Definition resumes (Q : Message -> Prop) (video : bool) {R : Type}
  (k : Settled R -> Prog Effect Capability unit) : Prop :=
  (forall e w, run clk (k (Rejected e)) w = Returned tt (faulted w e))
  /\ (forall r w, exists m,
        Q m /\ run clk (k (Resolved r)) w = Returned tt (finished w video m)).

Definition pending_resumes (Q : Message -> Prop) (video : bool)
  (p : Pending) : Prop :=
  match p with pending _ k => resumes Q video k end.

(** The result message of the submission accepted in [w]: its identity
    and timestamp were read before the call was awaited. *)
Definition result_of (w : World) (m : Message) : Prop :=
  id m = Number_toString (clk (2 + ticks w) + 1)
  /\ role m = ASSISTANT
  /\ timestamp m = clk (3 + ticks w)
  /\ is_placeholder m = false
  /\ metadata_invariant m.

End Outcomes.

(** How the service call of the video path settles for the dashboard once
    it has settled at all. *)
Definition video_outcome
  (s : Settled (geminiService.Progress (option str)))
  : option (Settled (option str)) :=
  match s with
  | Resolved (geminiService.Settles v) => Some (Resolved v)
  | Resolved geminiService.StillPolling => None
  | Rejected e => Some (Rejected e)
  end.

(** A status answer that ends the poll loop: a fault or a done
    operation. *)
Definition ends_polling (s : Settled geminiService.Operation) : bool :=
  match s with
  | Resolved op => geminiService.done op
  | Rejected _ => true
  end.

(* ================================================================== *)
(** ** Invariants of the page *)
(* ================================================================== *)

Section Invariants.

Variable clk : nat -> Z.

(** The welcome message heads the transcript, every message satisfies
    the metadata invariant, and every call in flight will append one
    that does. *)
Definition shape_inv (s : Page) : Prop :=
  (exists rest, messages (world s) = INITIAL_MESSAGE (clk 0) :: rest)
  /\ Forall metadata_invariant (messages (world s))
  /\ Forall (fun p => exists video,
               pending_resumes clk metadata_invariant video p)
       (inflight s).

(** The transcript is sorted by timestamp, no timestamp exceeds the next
    clock reading, and at most one call is in flight; the timestamp [t]
    of its result message bounds what the transcript will hold when it is
    appended. *)
Definition time_inv (s : Page) : Prop :=
  StronglySorted Z.le (timestamps (messages (world s)))
  /\ Forall (fun m => timestamp m <= clk (ticks (world s)))
       (messages (world s))
  /\ match inflight s with
     | [] => True
     | [p] =>
         isLoading (world s) = true
         /\ exists t video,
              pending_resumes clk (fun m => timestamp m = t) video p
              /\ t <= clk (ticks (world s))
              /\ Forall (fun m => not_temp m || negb video = true ->
                                  timestamp m <= t)
                   (messages (world s))
     | _ => False
     end.

End Invariants.

(* ================================================================== *)
(** ** Sample inputs *)
(* ================================================================== *)

(** A clock that advances by one millisecond per reading, and one whose
    readings all fall into the same millisecond. *)
Definition clock_ms (n : nat) : Z := 1700000000000 + Z.of_nat n.

Definition clock_same_ms (n : nat) : Z := 1700000000000.

Definition network_error : Error := JsError (lit "Failed to fetch").

Definition key_dialog_error : Error := JsError (lit "No API key selected").

(** Environments of the capability calls: every call rejects; every call
    resolves, the media calls with no media. *)
Definition rejects (e : Error) (R : Type) (c : Capability R) : Settled R :=
  Rejected e.

Definition resolves_without_media (R : Type) (c : Capability R)
  : Settled R :=
  match c in Capability R return Settled R with
  | generateStrategy _ _ _ =>
      Resolved {| strategy_text := lit "Shine Beyond." |}
  | conductResearch _ =>
      Resolved {| research_text := lit "Trends.";
                  research_sources :=
                    [ {| uri := lit "https://x"; title := lit "X" |} ] |}
  | generateProfessionalImage _ _ => Resolved None
  | generateCinematicVideo _ => Resolved None
  end.

(** The mounted page after the user picked mode [m] and typed [text]. *)
Definition typed (clk : nat -> Z) (m : GenerationMode.t) (text : str)
  : Page :=
  page_ui clk (onChange_input text)
    (page_ui clk (onClick_mode m) (mounted clk)).

Definition operation_running : geminiService.Operation :=
  {| geminiService.done := false; geminiService.response := None |}.

Definition operation_done (u : str) : geminiService.Operation :=
  {| geminiService.done := true;
     geminiService.response :=
       Some {| geminiService.generatedVideos :=
                 Some [ {| geminiService.video :=
                             Some {| geminiService.uri := Some u |} |} ] |} |}.

(** A key is already selected and the video is done at the third status
    request. *)
Definition env_renders : geminiService.Env :=
  {| geminiService.aistudio := true;
     geminiService.API_KEY := Some (lit "K");
     geminiService.hasKey := Resolved true;
     geminiService.selectKey := Resolved tt;
     geminiService.constructed := Resolved tt;
     geminiService.started := fun _ => Resolved operation_running;
     geminiService.polled := fun i =>
       if Nat.ltb i 2 then Resolved operation_running
       else Resolved (operation_done (lit "https://v/1?alt=media"));
     geminiService.fetched := fun u =>
       Resolved (geminiService.http_response u);
     geminiService.blobbed := fun r =>
       match r with
       | geminiService.http_response b => Resolved (geminiService.blob_of b)
       end;
     geminiService.objectURL := fun b =>
       match b with
       | geminiService.blob_of x => Resolved (lit "blob:" ++ x)
       end |}.

(** No key is selected yet and the key dialog fails. *)
Definition env_key_dialog_fails : geminiService.Env :=
  {| geminiService.aistudio := true;
     geminiService.API_KEY := geminiService.API_KEY env_renders;
     geminiService.hasKey := Resolved false;
     geminiService.selectKey := Rejected key_dialog_error;
     geminiService.constructed := Resolved tt;
     geminiService.started := geminiService.started env_renders;
     geminiService.polled := geminiService.polled env_renders;
     geminiService.fetched := geminiService.fetched env_renders;
     geminiService.blobbed := geminiService.blobbed env_renders;
     geminiService.objectURL := geminiService.objectURL env_renders |}.

(** The prompt of scenario C of the specification. *)
Definition ocean : str := lit "drone shot of ocean".

(** A copywriting request whose capability rejects within the
    millisecond of the submission. *)
Definition page_after_fast_fault : Page :=
  page_settle clock_same_ms (rejects network_error)
    (page_submit clock_same_ms
       (typed clock_same_ms GenerationMode.COPYWRITING (lit "hi"))).

(** A video request in flight, and settled by a rejection. *)
Definition page_video_in_flight : Page :=
  page_submit clock_ms (typed clock_ms GenerationMode.VIDEO ocean).

Definition page_after_video_fault : Page :=
  page_settle clock_ms (rejects key_dialog_error) page_video_in_flight.

(** Two video requests in a row whose calls are both rejected. *)
Definition page_after_two_video_faults : Page :=
  page_settle clock_ms (rejects key_dialog_error)
    (page_submit clock_ms
       (page_ui clock_ms (onChange_input ocean) page_after_video_fault)).

(** Worlds in which the handler is called: a white-space-only input and
    the prompts of scenarios A and B. *)
Definition world_blank : World :=
  world (page_ui clock_ms (onChange_input (lit "   " ++ LF ++ [160%N]))
           (mounted clock_ms)).

Definition world_tagline : World :=
  world (typed clock_ms GenerationMode.COPYWRITING
           (lit "Write a tagline for LuxNova")).

Definition world_skyline : World :=
  world (typed clock_ms GenerationMode.VISUAL (lit "neon skyline")).

(** Scenario D settled: a research request and its result. *)
Definition page_after_research : Page :=
  page_settle clock_ms resolves_without_media
    (page_submit clock_ms
       (typed clock_ms GenerationMode.RESEARCH
          (lit "sustainable packaging trends"))).

(** A video request settled with no video, after an earlier one whose
    call was rejected. *)
Definition page_after_two_videos : Page :=
  page_settle clock_ms resolves_without_media
    (page_submit clock_ms
       (page_ui clock_ms (onChange_input ocean) page_after_video_fault)).

(* ================================================================== *)
(** ** The rest of the dashboard *)
(* ================================================================== *)

(** The [disabled] attribute of the send button. *)
Definition sendDisabled (w : World) : bool :=
  isLoading w || (negb (truthy (trim (input w))) && negb (is_object (file w))).

(** [String.prototype.split] with a separator of one code unit: the
    pieces between the separators, the empty ones included. *)
Fixpoint split (sep : CodeUnit) (s : str) : list str :=
  match s with
  | [] => [[]]
  | c :: s' =>
      if N.eqb c sep then [] :: split sep s'
      else match split sep s' with
           | piece :: pieces => (c :: piece) :: pieces
           | [] => [[c]]
           end
  end.

Definition COMMA : CodeUnit := 44%N.

(** [base64String.split(',')[1]] of the file reader callback; [None] is
    [undefined]. *)
Definition base64Data (base64String : str) : option str :=
  nth_error (split COMMA base64String) 1.

(** The file picked in the file input, as [handleFileUpload] reads it:
    its name and its type. *)
Record PickedFile : Type := { picked_name : str; picked_type : str }.

(** The object the file reader callback passes to [setFile]; its [data]
    is [undefined] ([None]) when the string read has no second piece. *)
Record StoredFile : Type := {
  stored_name : str;
  stored_data : option str;
  stored_mime : str
}.

(** The [reader.onloadend] callback of [handleFileUpload] for the picked
    file [f] and a reader whose result is the string [result]: the
    argument of its [setFile]. *)
Definition onloadend (f : PickedFile) (result : str) : StoredFile :=
  let base64String := result in
  let base64Data := base64Data base64String in
  {| stored_name := picked_name f;
     stored_data := base64Data;
     stored_mime := picked_type f |}.

(* ================================================================== *)
(** ** [components/MessageBubble.tsx] *)
(* ================================================================== *)

Module MessageBubble.

(** One entry of the sources list: the link target and its text. *)
Record Link : Type := { href : str; label : str }.

(** What [renderContent] returns: the image view, the video view, or the
    text view with the sources section when it is shown. *)
Inductive Content : Type :=
| ImageView (caption : str) (src : str)
| VideoView (caption : str) (src : str)
| TextView (text : str) (sourcesSection : option (list Link)).

(** The bubble: side, thinking badge, content. *)
Record Bubble : Type := {
  isUser : bool;
  thinkingBadge : bool;
  body : Content
}.

(** [a || b] on strings. *)
Definition or_else (a b : str) : str := if truthy a then a else b.

(** [message.metadata?.imageUrl] and the like. *)
Definition metadata_imageUrl (message : Message) : option str :=
  match metadata message with Some md => imageUrl md | None => None end.

Definition metadata_videoUrl (message : Message) : option str :=
  match metadata message with Some md => videoUrl md | None => None end.

Definition metadata_sources (message : Message) : option (list Source) :=
  match metadata message with Some md => sources md | None => None end.

Definition metadata_thinking (message : Message) : option bool :=
  match metadata message with Some md => thinking md | None => None end.

Definition is_IMAGE (t : ContentType) : bool :=
  match t with IMAGE => true | _ => false end.

Definition is_VIDEO (t : ContentType) : bool :=
  match t with VIDEO => true | _ => false end.

(** The value of an attribute given a nullable string. *)
Definition attribute (o : option str) : str :=
  match o with Some s => s | None => [] end.

Definition renderContent (message : Message) : Content :=
  if is_IMAGE (type message) && truthy_opt (metadata_imageUrl message)
  then ImageView (content message) (attribute (metadata_imageUrl message))
  else if is_VIDEO (type message) && truthy_opt (metadata_videoUrl message)
  then VideoView (content message) (attribute (metadata_videoUrl message))
  else
    TextView (content message)
      match metadata_sources message with
      | Some (s :: l) =>
          Some (map (fun source =>
                       {| href := uri source;
                          label := or_else (title source) (uri source) |})
                  (s :: l))
      | _ => None
      end.

Definition MessageBubble (message : Message) : Bubble :=
  {| isUser := match role message with USER => true | ASSISTANT => false end;
     thinkingBadge :=
       match metadata_thinking message with Some true => true | _ => false end;
     body := renderContent message |}.

End MessageBubble.

(* ================================================================== *)
(** ** The [generateContent] path of the service module *)
(* ================================================================== *)

(** [generateStrategy], [conductResearch] and [generateProfessionalImage]:
    each creates a client and awaits one [ai.models.generateContent]. *)
Module contentService.

(** The request and response objects of the SDK, as far as the source
    builds and reads them; an absent field is [None]. *)
Record InlineData : Type := {
  inline_mimeType : option str;
  inline_data : option str
}.

Record Part : Type := {
  inlineData : option InlineData;
  text : option str
}.

Inductive Contents : Type :=
| contents_parts (parts : list Part)
| contents_string (s : str).

Record ImageConfig : Type := { aspectRatio : str; imageSize : str }.

Record Config : Type := {
  systemInstruction : option str;
  thinkingBudget : option Z;
  googleSearch : bool;
  imageConfig : option ImageConfig
}.

Record Request : Type := {
  model : str;
  contents : Contents;
  config : Config
}.

Record Web : Type := { web_uri : option str; web_title : option str }.
Record GroundingChunk : Type := { web : option Web }.
Record GroundingMetadata : Type := {
  groundingChunks : option (list GroundingChunk)
}.
Record Content : Type := { parts : option (list Part) }.
Record Candidate : Type := {
  content : option Content;
  groundingMetadata : option GroundingMetadata
}.
Record Response : Type := {
  response_text : option str;
  candidates : option (list Candidate)
}.

(** An element of the [sources] array ([any[]] in the source): the two
    fields copied from a web chunk. *)
Record WebSource : Type := { source_uri : option str; source_title : option str }.

Record Research : Type := {
  research : str;
  found : list WebSource
}.

Inductive Effect : Type -> Type :=
| process_env_API_KEY : Effect (option str)
| new_GoogleGenAI (apiKey : option str)
    : Effect (Settled geminiService.GoogleGenAI).

Inductive Call : Type -> Type :=
| generateContent (ai : geminiService.GoogleGenAI) (request : Request)
    : Call Response.

Definition Async (A : Type) : Type := Prog Effect Call A.

Local Open Scope prog_scope.

(** [createAI] *)
Definition createAI : Async geminiService.GoogleGenAI :=
  key <- act process_env_API_KEY ;;
  Act (new_GoogleGenAI key) (fun s =>
    match s with
    | Resolved ai => Ret ai
    | Rejected e => Throw e
    end).

(** [response.text || fallback] *)
Definition text_or (response : Response) (fallback : str) : str :=
  match response_text response with
  | Some t => if truthy t then t else fallback
  | None => fallback
  end.

Definition systemPrompt (contextData : str) : str :=
  lit "You are a world-class Creative Director and PR Strategist at a top-tier agency. "
  ++ LF
  ++ lit "  Your goal is to provide cinematic, high-impact, and emotionally resonant copy and strategy."
  ++ LF
  ++ lit "  You analyze market trends deeply." ++ LF
  ++ lit "  If the user asks for suggestions, provide them in a structured, persuasive format."
  ++ LF
  ++ lit "  Context: " ++ contextData.

(** [generateStrategy] *)
Definition generateStrategy (prompt contextData : str)
  (attachments : list MediaAttachment) : Async StrategyResult :=
  ai <- createAI ;;
  let parts :=
    map (fun att =>
           {| inlineData :=
                Some {| inline_mimeType := Some (mimeType att);
                        inline_data := Some (data att) |};
              text := None |})
      attachments in
  let systemPrompt := systemPrompt contextData in
  let parts := parts ++ [ {| inlineData := None; text := Some prompt |} ] in
  response <- await (generateContent ai
    {| model := lit "gemini-3-pro-preview";
       contents := contents_parts parts;
       config := {| systemInstruction := Some systemPrompt;
                    thinkingBudget := Some 2048;
                    googleSearch := false;
                    imageConfig := None |} |}) ;;
  Ret {| strategy_text := text_or response (lit "No content generated.") |}.

(** [response.candidates?.[0]?.groundingMetadata?.groundingChunks] *)
Definition chunks_of (response : Response)
  : option (list GroundingChunk) :=
  match candidates response with
  | Some (candidate :: _) =>
      match groundingMetadata candidate with
      | Some gm => groundingChunks gm
      | None => None
      end
  | _ => None
  end.

(** The callback of [flatMap]. *)
Definition web_source (c : GroundingChunk) : list WebSource :=
  match web c with
  | Some w => [ {| source_uri := web_uri w; source_title := web_title w |} ]
  | None => []
  end.

(** [conductResearch] *)
Definition conductResearch (query : str) : Async Research :=
  ai <- createAI ;;
  response <- await (generateContent ai
    {| model := lit "gemini-3-pro-preview";
       contents := contents_string
         (lit "Find the latest high-performing campaigns, trends, or competitors related to: "
          ++ query
          ++ lit ". Summarize the key visual and textual elements that made them successful.");
       config := {| systemInstruction := None;
                    thinkingBudget := None;
                    googleSearch := true;
                    imageConfig := None |} |}) ;;
  let sources :=
    match chunks_of response with
    | Some chunks => flat_map web_source chunks
    | None => []
    end in
  Ret {| research := text_or response (lit "No research found.");
         found := sources |}.

(** [response.candidates?.[0]?.content?.parts || []] *)
Definition parts_of (response : Response) : list Part :=
  match candidates response with
  | Some (candidate :: _) =>
      match content candidate with
      | Some c => match parts c with Some ps => ps | None => [] end
      | None => []
      end
  | _ => []
  end.

(** The loop over the parts: the data URL of the first part that has
    inline data, else [null]. *)
Fixpoint first_image (ps : list Part) : option str :=
  match ps with
  | [] => None
  | part :: rest =>
      match inlineData part with
      | Some inline =>
          Some (lit "data:image/png;base64,"
                ++ geminiService.String_of (inline_data inline))
      | None => first_image rest
      end
  end.

(** [generateProfessionalImage] *)
Definition generateProfessionalImage (prompt : str) (refImage : option str)
  : Async (option str) :=
  ai <- createAI ;;
  let parts :=
    if truthy_opt refImage then
      [ {| inlineData :=
             Some {| inline_mimeType := Some (lit "image/png");
                     inline_data := refImage |};
           text := None |};
        {| inlineData := None;
           text := Some (lit "Use the attached image as a stylistic reference or composition guide. ") |} ]
    else [] in
  let parts := parts ++
    [ {| inlineData := None;
         text := Some
           (lit "Create a high-end, award-winning photography or cinematic render. Photorealistic, dramatic lighting, 4k. Prompt: "
            ++ prompt) |} ] in
  response <- await (generateContent ai
    {| model := lit "gemini-3-pro-image-preview";
       contents := contents_parts parts;
       config := {| systemInstruction := None;
                    thinkingBudget := None;
                    googleSearch := false;
                    imageConfig :=
                      Some {| aspectRatio := lit "16:9";
                              imageSize := lit "2K" |} |} |}) ;;
  Ret (first_image (parts_of response)).

(** *** The environment of a call *)

(** The API key, how the client constructor settles, and how the model
    answers a request. *)
Record Env : Type := {
  API_KEY : option str;
  constructed : Settled unit;
  respond : Request -> Settled Response
}.

Section Exec.

Variable env : Env.

Definition perform {R : Type} (ev : Effect R) : R :=
  match ev in Effect R return R with
  | process_env_API_KEY => API_KEY env
  | new_GoogleGenAI key =>
      match constructed env with
      | Resolved _ => Resolved (geminiService.ai_with_key key)
      | Rejected e => Rejected e
      end
  end.

Definition answer {R : Type} (c : Call R) : Settled R :=
  match c in Call R return Settled R with
  | generateContent _ request => respond env request
  end.

Fixpoint exec {A : Type} (p : Async A) : Settled A :=
  match p with
  | Ret a => Resolved a
  | Throw e => Rejected e
  | Act ev k => exec (k (perform ev))
  | Wait c k => exec (k (answer c))
  end.

End Exec.

End contentService.

(* ================================================================== *)
(** ** Where every message comes from *)
(* ================================================================== *)

Section Origins.

Variable clk : nat -> Z.

(** The messages the dashboard constructs: the welcome message, a user
    message, the placeholder, the fault message, and the four shapes of
    a result message. *)
Inductive origin : Message -> Prop :=
| from_welcome : origin (INITIAL_MESSAGE (clk 0))
| from_user (w : World) : origin (user_message clk w)
| from_placeholder (t : Z) : origin (placeholder t)
| from_catch (w : World) : origin (error_message clk w)
| from_text (w : World) (c : str) :
    origin (set_content (result_base clk w) c)
| from_research (w : World) (c : str) (found : list Source) :
    origin (set_metadata
              (set_type (set_content (result_base clk w) c) RESEARCH)
              {| imageUrl := None; videoUrl := None;
                 sources := Some found; thinking := None |})
| from_image (w : World) (c url : str) :
    truthy url = true ->
    origin (set_metadata
              (set_content (set_type (result_base clk w) IMAGE) c)
              {| imageUrl := Some url; videoUrl := None;
                 sources := None; thinking := None |})
| from_video (w : World) (c url : str) :
    truthy url = true ->
    origin (set_metadata
              (set_content (set_type (result_base clk w) VIDEO) c)
              {| imageUrl := None; videoUrl := Some url;
                 sources := None; thinking := None |}).

Definition origin_inv (s : Page) : Prop :=
  Forall origin (messages (world s))
  /\ Forall (fun p => exists video, pending_resumes clk origin video p)
       (inflight s).

(** The busy flag is set exactly while a call is in flight, and there is
    at most one. *)
Definition flight_inv (s : Page) : Prop :=
  match inflight s with
  | [] => isLoading (world s) = false
  | [p] =>
      isLoading (world s) = true
      /\ exists video, pending_resumes clk (fun _ => True) video p
  | _ => False
  end.

End Origins.

(** The sources section as the bubble shows it for a list of sources. *)
Definition links_of (l : list Source) : list MessageBubble.Link :=
  map (fun source =>
         {| MessageBubble.href := uri source;
            MessageBubble.label :=
              MessageBubble.or_else (title source) (uri source) |}) l.

(** A model that answers every request with one inline image and some
    text; a client constructor that throws. *)
Definition sample_response : contentService.Response :=
  {| contentService.response_text := Some (lit "Shine Beyond.");
     contentService.candidates :=
       Some [ {| contentService.content :=
                   Some {| contentService.parts :=
                     Some [ {| contentService.inlineData := None;
                               contentService.text := Some (lit "Here:") |};
                            {| contentService.inlineData :=
                                 Some {| contentService.inline_mimeType :=
                                           Some (lit "image/png");
                                         contentService.inline_data :=
                                           Some (lit "iVBORw0KGgo=") |};
                               contentService.text := None |} ] |};
                 contentService.groundingMetadata :=
                   Some {| contentService.groundingChunks :=
                     Some [ {| contentService.web :=
                                 Some {| contentService.web_uri :=
                                           Some (lit "https://x");
                                         contentService.web_title :=
                                           Some (lit "X") |} |};
                            {| contentService.web := None |} ] |} |} ] |}.

Definition env_answers : contentService.Env :=
  {| contentService.API_KEY := Some (lit "K");
     contentService.constructed := Resolved tt;
     contentService.respond := fun _ => Resolved sample_response |}.

(** A picked file and the payload of its data URL. *)
Definition picked_logo : PickedFile :=
  {| picked_name := lit "logo.png"; picked_type := lit "image/png" |}.

Definition logo_payload : str := lit "iVBORw0KGgo=".

(** The object URL the video call resolves with in [env_renders]. *)
Definition rendered_url : str := lit "blob:https://v/1?alt=media&key=K".

(** A wall clock that is set back by a second after the module is
    loaded, and a copywriting request served under it. *)
Definition clock_set_back (n : nat) : Z :=
  match n with
  | O => 1700000001000
  | S _ => 1700000000000 + Z.of_nat n
  end.

Definition page_after_clock_set_back : Page :=
  page_settle clock_set_back resolves_without_media
    (page_submit clock_set_back
       (typed clock_set_back GenerationMode.COPYWRITING (lit "hi"))).

(* ================================================================== *)
(** ** Strings *)
(* ================================================================== *)

Lemma eqb_refl (a : str) : Js.eqb a a = true.
Proof.
  induction a as [|x a IH]; simpl; [reflexivity|].
  now rewrite N.eqb_refl, IH.
Qed.

Lemma eqb_eq (a b : str) : Js.eqb a b = true <-> a = b.
Proof.
  split.
  - revert b. induction a as [|x a IH]; intros [|y b] H; simpl in H;
      try discriminate; [reflexivity|].
    apply andb_true_iff in H as [Hx Hab].
    apply N.eqb_eq in Hx. apply IH in Hab. now subst.
  - intros ->. apply eqb_refl.
Qed.

Lemma trimStart_blank (s : str) : blank s -> trimStart s = [].
Proof.
  induction 1 as [|c s Hc _ IH]; simpl; [reflexivity|].
  now rewrite Hc.
Qed.

Lemma trim_blank (s : str) : blank s -> trim s = [].
Proof.
  intros H. unfold trim, trimEnd. now rewrite (trimStart_blank s H).
Qed.

Lemma has_duplicate_sound (l : list str) :
  has_duplicate l = true -> ~ NoDup l.
Proof.
  induction l as [|x l IH]; simpl; [discriminate|].
  intros H Hnd. apply NoDup_cons_iff in Hnd as [Hx Hl].
  apply orb_true_iff in H as [H|H]; [|now apply IH].
  apply existsb_exists in H as (y & Hy & Hxy).
  apply eqb_eq in Hxy. now subst.
Qed.

(** A number never prints as the reserved placeholder id. *)
Lemma Number_toString_not_temp (z : Z) :
  Js.eqb (Number_toString z) temp_video = false.
Proof.
  unfold Number_toString. destruct (Z.to_int z) as [[]|[]]; reflexivity.
Qed.

(* ================================================================== *)
(** ** One call of [handleSubmit] *)
(* ================================================================== *)

Ltac steps :=
  cbn [run bind act await try_catch try_finally Dashboard.perform mode].

(** Names the components of the world the handler is called in and runs
    the handler up to the dispatch on the mode. *)
Ltac enter w H Hm :=
  destruct w as [ms inp busy md f ctx fiv con tk];
  cbn [mode] in Hm; subst md;
  unfold handleSubmit; steps; rewrite H; steps.

Section OneCall.

Variable clk : nat -> Z.

Lemma handleSubmit_rejected (w : World) :
  rejected w = true -> run clk handleSubmit w = Returned tt w.
Proof.
  intros H. unfold handleSubmit. steps. now rewrite H.
Qed.

Lemma handleSubmit_copywriting (w : World) :
  rejected w = false -> mode w = GenerationMode.COPYWRITING ->
  exists k,
    run clk handleSubmit w
    = Suspended
        (generateStrategy (input w) (contextString (context w))
           match file w with
           | Some f => [ {| mimeType := mime f; data := fdata f |} ]
           | None => []
           end)
        k (dispatched clk w)
    /\ (forall e w',
          run clk (k (Rejected e)) w' = Returned tt (faulted clk w' e))
    /\ (forall r w',
          run clk (k (Resolved r)) w'
          = Returned tt
              (finished w' false
                 (set_content (result_base clk w) (strategy_text r)))).
Proof.
  intros H Hm. enter w H Hm.
  eexists. split; [reflexivity|]. split; intros; reflexivity.
Qed.

Lemma handleSubmit_research (w : World) :
  rejected w = false -> mode w = GenerationMode.RESEARCH ->
  exists k,
    run clk handleSubmit w
    = Suspended (conductResearch (input w)) k (dispatched clk w)
    /\ (forall e w',
          run clk (k (Rejected e)) w' = Returned tt (faulted clk w' e))
    /\ (forall r w',
          run clk (k (Resolved r)) w'
          = Returned tt
              (finished w' false
                 (set_metadata
                    (set_type
                       (set_content (result_base clk w) (research_text r))
                       RESEARCH)
                    {| imageUrl := None; videoUrl := None;
                       sources := Some (research_sources r);
                       thinking := None |}))).
Proof.
  intros H Hm. enter w H Hm.
  eexists. split; [reflexivity|]. split; intros; reflexivity.
Qed.

Lemma handleSubmit_visual (w : World) :
  rejected w = false -> mode w = GenerationMode.VISUAL ->
  exists k,
    run clk handleSubmit w
    = Suspended
        (generateProfessionalImage (input w) (option_map fdata (file w)))
        k (dispatched clk w)
    /\ (forall e w',
          run clk (k (Rejected e)) w' = Returned tt (faulted clk w' e))
    /\ (forall r w',
          run clk (k (Resolved r)) w'
          = Returned tt
              (finished w' false
                 (if truthy_opt r then
                    set_metadata
                      (set_content (set_type (result_base clk w) IMAGE)
                         (lit "Generated concept based on: " ++ DQUOTE
                          ++ input w ++ DQUOTE))
                      {| imageUrl := r; videoUrl := None;
                         sources := None; thinking := None |}
                  else set_content (result_base clk w) image_failed_text))).
Proof.
  intros H Hm. enter w H Hm.
  eexists. split; [reflexivity|]. split; intros; [reflexivity|].
  steps. destruct (truthy_opt r); reflexivity.
Qed.

Lemma handleSubmit_video (w : World) :
  rejected w = false -> mode w = GenerationMode.VIDEO ->
  exists k,
    run clk handleSubmit w
    = Suspended (generateCinematicVideo (input w)) k (dispatched clk w)
    /\ (forall e w',
          run clk (k (Rejected e)) w' = Returned tt (faulted clk w' e))
    /\ (forall r w',
          run clk (k (Resolved r)) w'
          = Returned tt
              (finished w' true
                 (if truthy_opt r then
                    set_metadata
                      (set_content (set_type (result_base clk w) VIDEO)
                         (lit "Render complete for scene: " ++ DQUOTE
                          ++ input w ++ DQUOTE))
                      {| imageUrl := None; videoUrl := r;
                         sources := None; thinking := None |}
                  else set_content (result_base clk w) video_failed_text))).
Proof.
  intros H Hm. enter w H Hm.
  eexists. split; [reflexivity|]. split; intros; [reflexivity|].
  steps. destruct (truthy_opt r); reflexivity.
Qed.

(** The metadata invariant of the messages the try block can build. *)
Ltac media_fields :=
  unfold metadata_invariant, populated, has_imageUrl, has_videoUrl,
    has_sources; cbn;
  repeat split; intros; try discriminate; try reflexivity; auto.

Lemma result_of_text (w : World) (c : str) :
  result_of clk w (set_content (result_base clk w) c).
Proof.
  unfold result_of. repeat split; try reflexivity; media_fields.
Qed.

(** Every accepted call suspends at its capability with the transcript
    extended as [dispatched] says, and its continuation [resumes]. *)
Lemma handleSubmit_accepted (w : World) :
  rejected w = false ->
  exists (R : Type) (c : Capability R) k,
    run clk handleSubmit w = Suspended c k (dispatched clk w)
    /\ resumes clk (result_of clk w) (is_video (mode w)) k.
Proof.
  intros H. destruct (mode w) eqn:Hm.
  - destruct (handleSubmit_copywriting w H Hm) as (k & Hk & Hf & Hr).
    do 2 eexists. exists k. split; [exact Hk|]. split; [exact Hf|].
    intros r w'. eexists. split; [|apply Hr]. apply result_of_text.
  - destruct (handleSubmit_research w H Hm) as (k & Hk & Hf & Hr).
    do 2 eexists. exists k. split; [exact Hk|]. split; [exact Hf|].
    intros r w'. eexists. split; [|apply Hr].
    unfold result_of. repeat split; try reflexivity; media_fields.
  - destruct (handleSubmit_visual w H Hm) as (k & Hk & Hf & Hr).
    do 2 eexists. exists k. split; [exact Hk|]. split; [exact Hf|].
    intros r w'. eexists. split; [|apply Hr].
    destruct r as [[|u0 u]|]; cbn [truthy_opt truthy];
      try apply result_of_text.
    unfold result_of. repeat split; try reflexivity; media_fields.
  - destruct (handleSubmit_video w H Hm) as (k & Hk & Hf & Hr).
    do 2 eexists. exists k. split; [exact Hk|]. split; [exact Hf|].
    intros r w'. eexists. split; [|apply Hr].
    destruct r as [[|u0 u]|]; cbn [truthy_opt truthy];
      try apply result_of_text.
    unfold result_of. repeat split; try reflexivity; media_fields.
Qed.

Lemma rejected_false_idle (w : World) :
  rejected w = false -> isLoading w = false.
Proof.
  unfold rejected. intros H. now apply orb_false_iff in H.
Qed.

End OneCall.

(* ================================================================== *)
(** ** Properties of one call *)
(* ================================================================== *)

Section CallProperties.

Variable clk : nat -> Z.

Lemma user_message_not_fault (w : World) :
  is_fault_message (user_message clk w) = false
  /\ terminal (user_message clk w) = false.
Proof. split; reflexivity. Qed.

Lemma placeholder_not_fault (t : Z) :
  is_fault_message (placeholder t) = false
  /\ terminal (placeholder t) = false.
Proof. split; reflexivity. Qed.

Lemma error_message_fault (w : World) :
  is_fault_message (error_message clk w) = true
  /\ terminal (error_message clk w) = true.
Proof. split; reflexivity. Qed.

(** C3. [handleSubmit] is a no-op when the raw input is empty or white
    space only and no attachment is pending, and when the busy flag is
    already set: it returns at once, awaits no capability, and leaves the
    whole component state (transcript, input buffer, pending attachment,
    busy flag) as it was. *)
Theorem submit_is_noop_when_blank_or_busy (w : World) :
  (blank (input w) /\ file w = None) \/ isLoading w = true ->
  run clk handleSubmit w = Returned tt w.
Proof.
  intros H. apply handleSubmit_rejected. unfold rejected.
  destruct H as [[Hb Hf] | Hl].
  - rewrite (trim_blank _ Hb), Hf. reflexivity.
  - rewrite Hl. apply orb_true_r.
Qed.

(** C1. An accepted call suspends at its capability; however the call
    settles, [handleSubmit] then returns normally with the busy flag
    cleared; if the call rejects, nothing is thrown to the caller and the
    transcript grows by one assistant TEXT message with the fixed error
    text, the only such message (and the only terminal assistant message)
    among those the call appended. *)
Theorem fault_is_caught_and_reported_once (w : World) :
  rejected w = false ->
  exists (R : Type) (c : Capability R) k w1,
    run clk handleSubmit w = Suspended c k w1
    /\ (forall (o : Settled R) w2, exists w3,
          run clk (k o) w2 = Returned tt w3 /\ isLoading w3 = false)
    /\ (forall e w2, exists w3 m,
          run clk (k (Rejected e)) w2 = Returned tt w3
          /\ isLoading w3 = false
          /\ messages w3 = messages w2 ++ [m]
          /\ role m = ASSISTANT /\ type m = TEXT
          /\ content m = error_text /\ metadata m = None)
    /\ (forall e, exists appended,
          messages (world_of (run clk (k (Rejected e)) w1))
          = messages w ++ appended
          /\ List.length (filter is_fault_message appended) = 1%nat
          /\ List.length (filter terminal appended) = 1%nat).
Proof.
  intros H.
  destruct (handleSubmit_accepted clk w H) as (R & c & k & Hk & Hf & Hr).
  exists R, c, k, (dispatched clk w). split; [exact Hk|].
  split; [|split].
  - intros [r|e] w2.
    + destruct (Hr r w2) as (m & _ & Hm). rewrite Hm. now eexists.
    + rewrite Hf. now eexists.
  - intros e w2. rewrite Hf. exists (faulted clk w2 e), (error_message clk w2).
    repeat split.
  - intros e. rewrite Hf. cbn [world_of faulted messages dispatched].
    destruct (is_video (mode w)).
    + exists [user_message clk w; placeholder (clk (4 + ticks w));
              error_message clk (dispatched clk w)].
      split; [now rewrite <- !app_assoc|]. split; reflexivity.
    + exists [user_message clk w; error_message clk (dispatched clk w)].
      split; [now rewrite <- !app_assoc|]. split; reflexivity.
Qed.

(** C5. An absent media result is not an error.  When the image
    capability resolves with null, the call returns normally, the catch
    block does not run (nothing is logged, the clock is not read), and
    the one message appended is an assistant TEXT message with the text
    [image_failed_text], so no IMAGE message is appended; likewise in
    VIDEO mode with [video_failed_text] and no VIDEO message, after the
    placeholder filter. *)
Theorem absent_media_is_reported_as_text (w : World) :
  rejected w = false ->
  (mode w = GenerationMode.VISUAL ->
   exists k w1,
     run clk handleSubmit w
     = Suspended
         (generateProfessionalImage (input w) (option_map fdata (file w)))
         k w1
     /\ forall w2, exists m,
          run clk (k (Resolved None)) w2 = Returned tt (finished w2 false m)
          /\ messages (finished w2 false m) = messages w2 ++ [m]
          /\ console (finished w2 false m) = console w2
          /\ role m = ASSISTANT /\ type m = TEXT
          /\ content m = image_failed_text /\ metadata m = None)
  /\ (mode w = GenerationMode.VIDEO ->
      exists k w1,
        run clk handleSubmit w
        = Suspended (generateCinematicVideo (input w)) k w1
        /\ forall w2, exists m,
             run clk (k (Resolved None)) w2
             = Returned tt (finished w2 true m)
             /\ messages (finished w2 true m)
                = filter not_temp (messages w2) ++ [m]
             /\ console (finished w2 true m) = console w2
             /\ role m = ASSISTANT /\ type m = TEXT
             /\ content m = video_failed_text /\ metadata m = None).
Proof.
  intros H. split; intros Hm.
  - destruct (handleSubmit_visual clk w H Hm) as (k & Hk & _ & Hr).
    exists k, (dispatched clk w). split; [exact Hk|]. intros w2.
    eexists. split; [apply (Hr None)|]. repeat split.
  - destruct (handleSubmit_video clk w H Hm) as (k & Hk & _ & Hr).
    exists k, (dispatched clk w). split; [exact Hk|]. intros w2.
    eexists. split; [apply (Hr None)|]. repeat split.
Qed.

(** The transcript at the end of a lifecycle that nothing interleaves
    with: after a rejection everything the dispatch appended is kept and
    the fault message follows, the placeholder of a VIDEO request
    included; after a result the user message and the result message
    follow the earlier transcript, which in VIDEO mode has lost every
    message with the placeholder id. *)
Lemma lifecycle_transcript (w : World) :
  rejected w = false ->
  exists (R : Type) (c : Capability R) k,
    run clk handleSubmit w = Suspended c k (dispatched clk w)
    /\ (forall e,
          messages (world_of (run clk (k (Rejected e)) (dispatched clk w)))
          = (messages w ++ user_message clk w ::
               (if is_video (mode w)
                then [placeholder (clk (4 + ticks w))] else []))
            ++ [error_message clk (dispatched clk w)])
    /\ (forall r, exists m,
          result_of clk w m /\ terminal m = true /\ not_temp m = true
          /\ messages (world_of (run clk (k (Resolved r)) (dispatched clk w)))
             = (if is_video (mode w)
                then filter not_temp (messages w) else messages w)
               ++ [user_message clk w; m]).
Proof.
  intros H.
  destruct (handleSubmit_accepted clk w H) as (R & c & k & Hk & Hf & Hr).
  exists R, c, k. split; [exact Hk|]. split.
  - intros e. rewrite Hf. cbn [world_of faulted messages dispatched].
    destruct (is_video (mode w)); now rewrite <- !app_assoc.
  - intros r. destruct (Hr r (dispatched clk w)) as (m & Hm & Hrun).
    exists m. split; [exact Hm|].
    destruct Hm as (Hid & Hrole & _ & Hph & _).
    assert (Hnt : not_temp m = true).
    { unfold not_temp. now rewrite Hid, Number_toString_not_temp. }
    split; [unfold terminal, by_assistant; now rewrite Hrole, Hph|].
    split; [exact Hnt|].
    rewrite Hrun. cbn [world_of finished messages dispatched].
    destruct (is_video (mode w)); [|now rewrite <- app_assoc].
    rewrite !filter_app. cbn [filter].
    replace (not_temp (user_message clk w)) with true
      by (unfold not_temp, user_message; cbn [id];
          now rewrite Number_toString_not_temp).
    replace (not_temp (placeholder (clk (4 + ticks w)))) with false
      by reflexivity.
    now rewrite app_nil_r, <- app_assoc.
Qed.

End CallProperties.

(* ================================================================== *)
(** ** Invariants of the reachable pages *)
(* ================================================================== *)

Lemma sorted_snoc (l : list Z) (y : Z) :
  StronglySorted Z.le l -> Forall (fun x => x <= y) l ->
  StronglySorted Z.le (l ++ [y]).
Proof.
  induction 1 as [|x l Hl IH Hx]; intros Hy; simpl.
  - repeat constructor.
  - inversion Hy as [|? ? Hxy Hly]; subst. constructor; [now apply IH|].
    apply Forall_app. split; [exact Hx|]. now repeat constructor.
Qed.

Lemma timestamps_filter_sorted (f : Message -> bool) (ms : list Message) :
  StronglySorted Z.le (timestamps ms) ->
  StronglySorted Z.le (timestamps (filter f ms)).
Proof.
  induction ms as [|m ms IH]; simpl; intros H; [exact H|].
  inversion H as [|? ? Hs Hm]; subst.
  destruct (f m); simpl; [|now apply IH].
  constructor; [now apply IH|].
  rewrite Forall_forall in *. intros t Ht. apply Hm.
  unfold timestamps in *. apply in_map_iff in Ht as (x & <- & Hx).
  apply filter_In in Hx as [Hx _]. now apply in_map.
Qed.

Lemma Forall_kept {A : Type} (P : A -> Prop) (f : A -> bool) (l : list A) :
  Forall P l -> Forall P (filter f l).
Proof.
  rewrite !Forall_forall. intros H x Hx.
  apply filter_In in Hx as [Hx _]. now apply H.
Qed.

Lemma Forall_one {A : Type} (P : A -> Prop) (x : A) : P x -> Forall P [x].
Proof. intros H. constructor; [exact H | constructor]. Qed.

Lemma single_pending (p q : Pending) (before after : list Pending) :
  [p] = before ++ q :: after -> p = q /\ before = [] /\ after = [].
Proof.
  destruct before as [|b before]; simpl; intros H.
  - now inversion H.
  - inversion H as [[Hb Hn]]. now destruct before.
Qed.

Section Pages.

Variable clk : nat -> Z.

Lemma invariant_reachable (I : Page -> Prop) :
  I (mounted clk) ->
  (forall s s', I s -> step clk s s' -> I s') ->
  forall s, reachable clk s -> I s.
Proof.
  intros Hinit Hstep s Hs. induction Hs as [|s s' _ IH Hss'];
    [exact Hinit | now apply (Hstep s)].
Qed.

Lemma ui_transcript (ev : UiEvent) (w : World) :
  messages (ui clk ev w) = messages w
  /\ ticks (ui clk ev w) = ticks w
  /\ isLoading (ui clk ev w) = isLoading w.
Proof. destruct ev; repeat split. Qed.

Lemma resumes_weaken (Q Q' : Message -> Prop) (video : bool) (R : Type)
  (k : Settled R -> Prog Effect Capability unit) :
  (forall m, Q m -> Q' m) -> resumes clk Q video k -> resumes clk Q' video k.
Proof.
  intros HQ [Hf Hr]. split; [exact Hf|].
  intros r w. destruct (Hr r w) as (m & Hm & Hrun). exists m. auto.
Qed.

Lemma plain_text_invariant (m : Message) :
  type m = TEXT ->
  has_imageUrl m = false -> has_videoUrl m = false ->
  has_sources m = false -> metadata_invariant m.
Proof.
  intros Ht Hi Hv Hs. unfold metadata_invariant, populated.
  rewrite Hi, Hv, Hs, Ht. cbn.
  repeat split; intros; try discriminate; auto.
Qed.

Lemma welcome_not_temp (t : Z) : not_temp (INITIAL_MESSAGE t) = true.
Proof. reflexivity. Qed.

Lemma shape_inv_mounted : shape_inv clk (mounted clk).
Proof.
  split; [|split].
  - now exists [].
  - apply Forall_one. now apply plain_text_invariant.
  - constructor.
Qed.

Lemma shape_inv_step (s s' : Page) :
  shape_inv clk s -> step clk s s' -> shape_inv clk s'.
Proof.
  intros ([rest Hhead] & Hall & Hpend) Hstep.
  destruct Hstep as [s ev | s | s before after R c k outcome Hin].
  - unfold shape_inv. cbn [world inflight].
    destruct (ui_transcript ev (world s)) as (-> & _ & _).
    split; [now exists rest|]. now split.
  - destruct (rejected (world s)) eqn:Hrej.
    + rewrite (handleSubmit_rejected clk _ Hrej). cbn [absorb].
      split; [now exists rest|]. now split.
    + destruct (handleSubmit_accepted clk _ Hrej)
        as (R & c & k & Hk & Hres).
      rewrite Hk. unfold shape_inv. cbn [absorb world inflight].
      cbn [dispatched messages]. rewrite Hhead.
      split; [|split].
      * destruct (is_video (mode (world s))); eexists; reflexivity.
      * rewrite <- Hhead.
        assert (Hsent : Forall metadata_invariant
                  (messages (world s) ++ [user_message clk (world s)])).
        { apply Forall_app. split; [exact Hall|].
          apply Forall_one. now apply plain_text_invariant. }
        destruct (is_video (mode (world s))); [|exact Hsent].
        apply Forall_app. split; [exact Hsent|].
        apply Forall_one. now apply plain_text_invariant.
      * apply Forall_app. split; [exact Hpend|].
        apply Forall_one. exists (is_video (mode (world s))).
        cbn [pending_resumes]. revert Hres. apply resumes_weaken.
        intros m Hm. apply Hm.
  - rewrite Hin in Hpend. apply Forall_app in Hpend as [Hb Hrest].
    apply Forall_cons_iff in Hrest as [[video Hp] Ha].
    cbn [pending_resumes] in Hp. destruct Hp as [Hf Hr].
    assert (Hothers : Forall (fun p => exists video,
              pending_resumes clk metadata_invariant video p)
              (before ++ after)) by (apply Forall_app; now split).
    destruct outcome as [r|e].
    + destruct (Hr r (world s)) as (m & Hm & Hrun). rewrite Hrun.
      unfold shape_inv. cbn [absorb world inflight finished messages].
      split; [|split; [|exact Hothers]].
      * rewrite Hhead. destruct video; [|eexists; reflexivity].
        cbn [filter]. rewrite welcome_not_temp. eexists; reflexivity.
      * apply Forall_app. split; [|now apply Forall_one].
        destruct video; [now apply Forall_kept | exact Hall].
    + rewrite Hf. unfold shape_inv.
      cbn [absorb world inflight faulted messages].
      split; [|split; [|exact Hothers]].
      * rewrite Hhead. eexists; reflexivity.
      * apply Forall_app. split; [exact Hall|].
        apply Forall_one. now apply plain_text_invariant.
Qed.

Lemma reachable_shape (s : Page) : reachable clk s -> shape_inv clk s.
Proof.
  apply invariant_reachable; [apply shape_inv_mounted | apply shape_inv_step].
Qed.

(** C8. In every reachable state of the page each message of the
    transcript satisfies the metadata invariant: at most one of
    [imageUrl], [videoUrl], [sources] is populated, each exactly when the
    type is IMAGE, VIDEO or RESEARCH respectively, and a TEXT message
    carries none of them. *)
Theorem metadata_matches_type_in_reachable_pages (s : Page) :
  reachable clk s -> Forall metadata_invariant (messages (world s)).
Proof.
  intros Hs. apply (reachable_shape s Hs).
Qed.

(** C10. The transcript is never empty: the mounted page holds exactly
    the welcome message (id [welcome], by the assistant, of type TEXT),
    and in every reachable state that message is still the first entry. *)
Theorem welcome_message_stays_first (s : Page) :
  reachable clk s ->
  messages (world (mounted clk)) = [INITIAL_MESSAGE (clk 0)]
  /\ id (INITIAL_MESSAGE (clk 0)) = lit "welcome"
  /\ role (INITIAL_MESSAGE (clk 0)) = ASSISTANT
  /\ type (INITIAL_MESSAGE (clk 0)) = TEXT
  /\ exists rest, messages (world s) = INITIAL_MESSAGE (clk 0) :: rest.
Proof.
  intros Hs. repeat split. apply (reachable_shape s Hs).
Qed.

End Pages.

(* ================================================================== *)
(** ** Timestamps *)
(* ================================================================== *)

Section Timestamps.

Variable clk : nat -> Z.

(** [Date.now()] never goes back. *)
Hypothesis clk_monotone : forall i j, (i <= j)%nat -> clk i <= clk j.

Lemma bounded_later (ms : list Message) (i j : nat) :
  (i <= j)%nat ->
  Forall (fun m => timestamp m <= clk i) ms ->
  Forall (fun x => x <= clk j) (timestamps ms).
Proof.
  intros Hij H. unfold timestamps. apply Forall_map.
  revert H. apply Forall_impl. intros m Hm.
  apply Z.le_trans with (clk i); [exact Hm | now apply clk_monotone].
Qed.

Lemma sorted_append (ms : list Message) (m : Message) (i j : nat) :
  (i <= j)%nat -> timestamp m = clk j ->
  StronglySorted Z.le (timestamps ms) ->
  Forall (fun m => timestamp m <= clk i) ms ->
  StronglySorted Z.le (timestamps (ms ++ [m])).
Proof.
  intros Hij Hm Hs Hb. unfold timestamps. rewrite map_app. cbn [map].
  rewrite Hm. apply sorted_snoc; [exact Hs|].
  now apply bounded_later with i.
Qed.

Lemma bounded_append (ms : list Message) (m : Message) (i j k : nat) :
  (i <= k)%nat -> (j <= k)%nat -> timestamp m = clk j ->
  Forall (fun m => timestamp m <= clk i) ms ->
  Forall (fun m => timestamp m <= clk k) (ms ++ [m]).
Proof.
  intros Hik Hjk Hm Hb. apply Forall_app. split.
  - revert Hb. apply Forall_impl. intros x Hx.
    apply Z.le_trans with (clk i); [exact Hx | now apply clk_monotone].
  - apply Forall_one. rewrite Hm. now apply clk_monotone.
Qed.

Lemma time_inv_mounted : time_inv clk (mounted clk).
Proof.
  split; [|split].
  - repeat constructor.
  - apply Forall_one. cbn. apply clk_monotone. lia.
  - exact I.
Qed.

Lemma time_inv_submit (s : Page) :
  time_inv clk s -> time_inv clk (page_submit clk s).
Proof.
  intros (Hs & Hb & Hp). unfold page_submit.
  destruct (rejected (world s)) eqn:Hrej.
  { rewrite (handleSubmit_rejected clk _ Hrej). cbn [absorb].
    split; [exact Hs|]. now split. }
  assert (Hidle : inflight s = []).
  { pose proof (rejected_false_idle _ Hrej) as Hl.
    destruct (inflight s) as [|p [|q l]]; [reflexivity| |contradiction].
    destruct Hp as [Hbusy _]. congruence. }
  destruct (handleSubmit_accepted clk _ Hrej) as (R & c & k & Hk & Hres).
  rewrite Hk, Hidle. unfold time_inv. cbn [absorb world inflight app].
  set (w := world s) in *. set (tk := ticks w) in *.
  assert (Hsent_s : StronglySorted Z.le
            (timestamps (messages w ++ [user_message clk w]))).
  { apply sorted_append with tk (S tk); auto. }
  assert (Hsent_b : Forall (fun m => timestamp m <= clk (S tk))
            (messages w ++ [user_message clk w])).
  { apply bounded_append with tk (S tk); auto. }
  split; [|split; [|split]].
  - cbn [dispatched messages]. destruct (is_video (mode w)); [|exact Hsent_s].
    apply sorted_append with (S tk) (4 + tk)%nat; auto. lia.
  - cbn [dispatched messages ticks]. fold tk.
    destruct (is_video (mode w)).
    + apply bounded_append with (S tk) (4 + tk)%nat; auto; lia.
    + revert Hsent_b. apply Forall_impl. intros m Hm.
      apply Z.le_trans with (clk (S tk)); [exact Hm|].
      apply clk_monotone. lia.
  - reflexivity.
  - exists (clk (3 + tk)), (is_video (mode w)). split; [|split].
    + cbn [pending_resumes]. revert Hres. apply resumes_weaken.
      intros m Hm. apply Hm.
    + cbn [dispatched ticks]. fold tk. apply clk_monotone.
      destruct (is_video (mode w)); lia.
    + assert (Hsent_t : Forall (fun m =>
                not_temp m || negb (is_video (mode w)) = true ->
                timestamp m <= clk (3 + tk))
                (messages w ++ [user_message clk w])).
      { revert Hsent_b. apply Forall_impl. intros m Hm _.
        apply Z.le_trans with (clk (S tk)); [exact Hm|].
        apply clk_monotone. lia. }
      cbn [dispatched messages].
      destruct (is_video (mode w)); [|exact Hsent_t].
      apply Forall_app. split; [exact Hsent_t|].
      apply Forall_one. intros Habs. discriminate Habs.
Qed.

Lemma time_inv_step (s s' : Page) :
  time_inv clk s -> step clk s s' -> time_inv clk s'.
Proof.
  intros Hinv Hstep.
  destruct Hstep as [s ev | s | s before after R c k outcome Hin].
  - destruct Hinv as (Hs & Hb & Hp). unfold time_inv. cbn [world inflight].
    destruct (ui_transcript clk ev (world s)) as (-> & -> & ->).
    split; [exact Hs|]. now split.
  - now apply time_inv_submit.
  - destruct Hinv as (Hs & Hb & Hp). rewrite Hin in Hp.
    assert (Hone : before = [] /\ after = []).
    { destruct before as [|b before]; cbn [app] in Hp.
      - destruct after; [now split | contradiction].
      - destruct before; cbn [app] in Hp; contradiction. }
    destruct Hone as [-> ->]. cbn [app] in Hp |- *.
    destruct Hp as (Hbusy & t & video & [Hf Hr] & Ht & Hle).
    set (w := world s) in *.
    destruct outcome as [r|e].
    + destruct (Hr r w) as (m & Hm & Hrun). rewrite Hrun.
      unfold time_inv. cbn [absorb world inflight finished messages ticks].
      assert (Hkept_t : Forall (fun x => x <= t)
                (timestamps (if video then filter not_temp (messages w)
                             else messages w))).
      { unfold timestamps. apply Forall_map. rewrite Forall_forall in *.
        intros x Hx. destruct video.
        - apply filter_In in Hx as [Hx Hnt]. apply Hle; [exact Hx|].
          now rewrite Hnt.
        - apply Hle; [exact Hx|]. apply orb_true_r. }
      split; [|split; [|exact I]].
      * unfold timestamps. rewrite map_app. cbn [map]. rewrite Hm.
        apply sorted_snoc; [|exact Hkept_t].
        destruct video; [now apply timestamps_filter_sorted | exact Hs].
      * apply Forall_app. split.
        -- destruct video; [now apply Forall_kept | exact Hb].
        -- apply Forall_one. now rewrite Hm.
    + rewrite Hf. unfold time_inv.
      cbn [absorb world inflight faulted messages ticks].
      split; [|split; [|exact I]].
      * apply sorted_append with (ticks w) (S (ticks w)); auto.
      * apply bounded_append with (ticks w) (S (ticks w)); auto; lia.
Qed.

Lemma reachable_time (s : Page) : reachable clk s -> time_inv clk s.
Proof.
  apply invariant_reachable; [apply time_inv_mounted | apply time_inv_step].
Qed.

(** C7. With a clock that never goes back, the timestamps of the
    transcript are non-decreasing in transcript order in every reachable
    state of the page, although the result message carries a reading
    taken before its capability was awaited (in VIDEO mode before the
    reading of the placeholder). *)
Theorem timestamps_are_nondecreasing (s : Page) :
  reachable clk s -> Sorted Z.le (timestamps (messages (world s))).
Proof.
  intros Hs. apply StronglySorted_Sorted. apply (reachable_time s Hs).
Qed.

End Timestamps.

(* ================================================================== *)
(** ** Computing reachable pages *)
(* ================================================================== *)

Section Simulation.

Variable clk : nat -> Z.

Lemma reachable_ui (ev : UiEvent) (s : Page) :
  reachable clk s -> reachable clk (page_ui clk ev s).
Proof.
  intros Hs. apply reach_step with s; [exact Hs | apply step_ui].
Qed.

Lemma reachable_submit (s : Page) :
  reachable clk s -> reachable clk (page_submit clk s).
Proof.
  intros Hs. apply reach_step with s; [exact Hs | apply step_submit].
Qed.

Lemma reachable_settle (answer : forall R, Capability R -> Settled R)
  (s : Page) :
  reachable clk s -> reachable clk (page_settle clk answer s).
Proof.
  intros Hs. unfold page_settle.
  destruct (inflight s) as [|[R c k] others] eqn:Hin; [exact Hs|].
  apply reach_step with s; [exact Hs|].
  exact (step_settle clk s [] others c k (answer R c) Hin).
Qed.

Lemma reachable_typed (m : GenerationMode.t) (text : str) :
  reachable clk (typed clk m text).
Proof.
  unfold typed. do 2 apply reachable_ui. apply reach_mounted.
Qed.

End Simulation.

(* ================================================================== *)
(** ** Where the code departs from the specification *)
(* ================================================================== *)

(** C2.  A VIDEO request whose capability call rejects: by the end of the
    lifecycle the call has appended the user message, the placeholder and
    the fault message, and the placeholder is still in the transcript,
    where exactly one user message, one terminal assistant message and no
    placeholder were to remain. *)
Example video_fault_leaves_three_messages :
  reachable clock_ms page_after_video_fault
  /\ inflight page_after_video_fault = []
  /\ isLoading (world page_after_video_fault) = false
  /\ map (fun m => (by_user m, terminal m, is_placeholder m))
       (messages (world page_after_video_fault))
     = [ (false, true, false); (true, false, false);
         (false, false, true); (false, true, false) ]
  /\ existsb is_placeholder (messages (world page_after_video_fault)) = true.
Proof.
  split.
  - apply reachable_settle, reachable_submit, reachable_typed.
  - repeat split; vm_compute; reflexivity.
Qed.

(** C4.  The service call rejects when the key dialog fails, and the
    dashboard then keeps the placeholder: the message with id
    [temp-video] and [thinking = true] is in the transcript right after
    dispatch and is still there after the settlement, next to the fault
    message. *)
Example placeholder_survives_rejected_video_call :
  video_outcome
    (geminiService.exec env_key_dialog_fails
       (geminiService.generateCinematicVideo 3 ocean) 0)
  = Some (Rejected key_dialog_error)
  /\ map (fun m => (Js.eqb (id m) temp_video, is_placeholder m))
       (messages (world page_video_in_flight))
     = [ (false, false); (false, false); (true, true) ]
  /\ map (fun m => (Js.eqb (id m) temp_video, is_placeholder m,
                    is_fault_message m))
       (messages (world page_after_video_fault))
     = [ (false, false, false); (false, false, false);
         (true, true, false); (false, false, true) ]
  /\ isLoading (world page_after_video_fault) = false.
Proof.
  repeat split; vm_compute; reflexivity.
Qed.

(** C6.  A request whose capability rejects within the millisecond of
    the submission: the fault message takes [Date.now().toString()] as
    its id, the same string as the id of the user message, so the
    transcript of this reachable page holds two messages with one id.
    And whatever the clock, two VIDEO requests whose calls are rejected
    leave two placeholders with the reserved id. *)
Example fault_message_reuses_user_message_id :
  reachable clock_same_ms page_after_fast_fault
  /\ ids (messages (world page_after_fast_fault))
     = [ lit "welcome"; lit "1700000000000"; lit "1700000000000" ]
  /\ map role (messages (world page_after_fast_fault))
     = [ ASSISTANT; USER; ASSISTANT ]
  /\ ~ NoDup (ids (messages (world page_after_fast_fault)))
  /\ reachable clock_ms page_after_two_video_faults
  /\ map (fun m => Js.eqb (id m) temp_video)
       (messages (world page_after_two_video_faults))
     = [ false; false; true; false; false; true; false ]
  /\ ~ NoDup (ids (messages (world page_after_two_video_faults))).
Proof.
  split; [|split; [|split; [|split; [|split; [|split]]]]].
  - apply reachable_settle, reachable_submit, reachable_typed.
  - vm_compute. reflexivity.
  - vm_compute. reflexivity.
  - apply has_duplicate_sound. vm_compute. reflexivity.
  - apply reachable_settle, reachable_submit, reachable_ui.
    apply reachable_settle, reachable_submit, reachable_typed.
  - vm_compute. reflexivity.
  - apply has_duplicate_sound. vm_compute. reflexivity.
Qed.

(** C7, as stated, fails: [Date.now()] is the wall clock, and when it is
    set back (here by a second, after the welcome message took its
    reading) the transcript of a reachable page holds a later reading
    before an earlier one. *)
Example timestamps_decrease_when_the_clock_is_set_back :
  reachable clock_set_back page_after_clock_set_back
  /\ timestamps (messages (world page_after_clock_set_back))
     = [ 1700000001000; 1700000000002; 1700000000004 ]
  /\ ~ Sorted Z.le (timestamps (messages (world page_after_clock_set_back))).
Proof.
  assert (Hts : timestamps (messages (world page_after_clock_set_back))
                = [ 1700000001000; 1700000000002; 1700000000004 ])
    by (vm_compute; reflexivity).
  split; [|split; [exact Hts|]].
  - apply reachable_settle, reachable_submit, reachable_typed.
  - rewrite Hts. intros H. apply Sorted_inv in H as [_ H].
    apply HdRel_inv in H. lia.
Qed.

(* ================================================================== *)
(** ** The video call *)
(* ================================================================== *)

Section VideoCall.

Import geminiService.

Variable env : Env.

Lemma exec_after_ensureApiKey {A : Type} (f : unit -> Async A) (n : nat) :
  exec env (bind ensureApiKey f) n
  = match exec env ensureApiKey n with
    | Resolved _ => exec env (f tt) n
    | Rejected e => Rejected e
    end.
Proof.
  unfold ensureApiKey. cbn. destruct (aistudio env); cbn; [|reflexivity].
  destruct (hasKey env) as [[|]|e]; cbn; try reflexivity.
  destruct (selectKey env) as [[]|e]; reflexivity.
Qed.

Lemma exec_after_createAI {A : Type} (f : GoogleGenAI -> Async A) (n : nat) :
  exec env (bind createAI f) n
  = match constructed env with
    | Resolved _ => exec env (f (ai_with_key (API_KEY env))) n
    | Rejected e => Rejected e
    end.
Proof.
  unfold createAI. cbn. destruct (constructed env); reflexivity.
Qed.

(** The catch block turns every rejection of the try block into the
    null result and lets every result through. *)
Lemma exec_try_catch (p : Async (Progress (option str))) (n : nat) :
  exec env (try_catch p video_failed) n
  = match exec env p n with
    | Resolved r => Resolved r
    | Rejected _ => Resolved (Settles None)
    end.
Proof.
  revert n. induction p as [a | e | R ev k IH | R c k IH]; intros n;
    cbn [try_catch exec]; try reflexivity.
  - apply IH.
  - destruct (answer env c n) as [r n']. apply IH.
Qed.

(** What follows the poll loop never reports that polling goes on. *)
Lemma fetch_settles (operation : Operation) (n : nat) :
  exec env
    (let videoUri := videoUri_of operation in
     if negb (truthy_opt videoUri) then Ret (Settles None) else
     bind (act process_env_API_KEY) (fun key =>
     bind (await (fetch
       (String_of videoUri ++ lit "&key=" ++ String_of key))) (fun videoRes =>
     bind (await (blob videoRes)) (fun b =>
     bind (sync (URL_createObjectURL b)) (fun url =>
     Ret (Settles (Some url))))))) n
  <> Resolved StillPolling.
Proof.
  cbv zeta. destruct (negb (truthy_opt (videoUri_of operation)));
    [discriminate|].
  cbn. destruct (fetched env _) as [res|e]; cbn; [|discriminate].
  destruct (blobbed env res) as [b|e]; cbn; [|discriminate].
  destruct (objectURL env b) as [url|e]; cbn; discriminate.
Qed.

Lemma poll_settles (ai : GoogleGenAI) (fuel : nat) :
  forall (operation : Operation) (n : nat)
    (f : option Operation -> Async (Progress (option str))),
    (forall op' n', exec env (f (Some op')) n' <> Resolved StillPolling) ->
    done operation = true
    \/ (exists i, (n <= i < n + fuel)%nat
                  /\ ends_polling (polled env i) = true) ->
    exec env (bind (poll fuel ai operation) f) n <> Resolved StillPolling.
Proof.
  induction fuel as [|fuel IH]; intros operation n f Hf Hend.
  - cbn [poll]. destruct (done operation) eqn:Hd; [apply Hf|].
    destruct Hend as [Habs | (i & Hi & _)]; [discriminate | lia].
  - cbn [poll]. destruct (done operation) eqn:Hd; [apply Hf|].
    destruct Hend as [Habs | (i & Hi & Hends)]; [discriminate|].
    cbn. destruct (polled env n) as [op'|e] eqn:Hp; cbn; [|discriminate].
    apply IH; [exact Hf|].
    destruct (Nat.eq_dec i n) as [->|Hne].
    + left. rewrite Hp in Hends. exact Hends.
    + right. exists i. split; [lia | exact Hends].
Qed.

Lemma render_video_settles (fuel : nat) (ai : GoogleGenAI) (prompt : str) :
  ends_polling (started env
    (lit "Cinematic shot, movie quality, high production value. "
     ++ prompt)) = true
  \/ (exists i, (i < fuel)%nat /\ ends_polling (polled env i) = true) ->
  exec env (render_video fuel ai prompt) 0 <> Resolved StillPolling.
Proof.
  intros Hend. unfold render_video. cbn [bind await exec answer].
  destruct (started env _) as [operation|e] eqn:Hs; cbn [bind exec];
    [|discriminate].
  apply poll_settles.
  - intros op' n'. apply fetch_settles.
  - destruct Hend as [Hd | (i & Hi & Hends)]; [left; exact Hd|].
    right. exists i. split; [lia | exact Hends].
Qed.

(** C9, as the code has it.  When [ensureApiKey] and [createAI], which
    run before the [try] block, complete without throwing, the call never
    rejects: it resolves with what the try block resolves with, and with
    null when the try block (operation start, status requests, fetch of
    the bytes) throws; and once a status request ends the polling within
    the rounds given, it settles with a video reference or null. *)
Theorem faults_inside_try_become_null (fuel : nat) (prompt : str) :
  exec env ensureApiKey 0 = Resolved tt ->
  constructed env = Resolved tt ->
  exec env (generateCinematicVideo fuel prompt) 0
  = match exec env
            (render_video fuel (ai_with_key (API_KEY env)) prompt) 0 with
    | Resolved r => Resolved r
    | Rejected _ => Resolved (Settles None)
    end
  /\ (exists r, exec env (generateCinematicVideo fuel prompt) 0 = Resolved r)
  /\ (ends_polling (started env
        (lit "Cinematic shot, movie quality, high production value. "
         ++ prompt)) = true
      \/ (exists i, (i < fuel)%nat /\ ends_polling (polled env i) = true) ->
      exists v,
        exec env (generateCinematicVideo fuel prompt) 0
        = Resolved (Settles v)).
Proof.
  intros Hkey Hai.
  assert (Heq : exec env (generateCinematicVideo fuel prompt) 0
    = match exec env
              (render_video fuel (ai_with_key (API_KEY env)) prompt) 0 with
      | Resolved r => Resolved r
      | Rejected _ => Resolved (Settles None)
      end).
  { unfold generateCinematicVideo.
    rewrite exec_after_ensureApiKey, Hkey, exec_after_createAI, Hai.
    apply exec_try_catch. }
  split; [exact Heq|]. split.
  - rewrite Heq. destruct (exec env (render_video _ _ _) 0); now eexists.
  - intros Hend. rewrite Heq.
    pose proof (render_video_settles fuel (ai_with_key (API_KEY env))
                  prompt Hend) as Hne.
    destruct (exec env (render_video _ _ _) 0) as [[v|]|e];
      [now exists v | congruence | now exists None].
Qed.

End VideoCall.

(** C9, as stated, fails: with no key selected and a failing key dialog
    the rejection of [openSelectKey] leaves [ensureApiKey], outside the
    [try] block, and the call rejects. *)
Example video_call_rejects_when_key_dialog_fails :
  geminiService.exec env_key_dialog_fails
    (geminiService.generateCinematicVideo 3 ocean) 0
  = Rejected key_dialog_error.
Proof. vm_compute. reflexivity. Qed.

(* ================================================================== *)
(** ** The properties at sample inputs *)
(* ================================================================== *)

Lemma clock_ms_monotone (i j : nat) : (i <= j)%nat -> clock_ms i <= clock_ms j.
Proof. unfold clock_ms. lia. Defined.

Lemma reachable_after_research : reachable clock_ms page_after_research.
Proof.
  apply reachable_settle, reachable_submit, reachable_typed.
Qed.

Lemma reachable_after_two_videos : reachable clock_ms page_after_two_videos.
Proof.
  apply reachable_settle, reachable_submit, reachable_ui.
  apply reachable_settle, reachable_submit, reachable_typed.
Qed.

Lemma submit_is_noop_witness :
  ((blank (input world_blank) /\ file world_blank = None)
   \/ isLoading world_blank = true)
  /\ run clock_ms handleSubmit world_blank = Returned tt world_blank.
Proof.
  assert (H : (blank (input world_blank) /\ file world_blank = None)
              \/ isLoading world_blank = true).
  { left. split; [|reflexivity]. repeat constructor. }
  split; [exact H|].
  exact (submit_is_noop_when_blank_or_busy clock_ms world_blank H).
Defined.

Lemma fault_is_caught_witness :
  rejected world_tagline = false
  /\ exists (R : Type) (c : Capability R) k w1,
       run clock_ms handleSubmit world_tagline = Suspended c k w1
       /\ (forall (o : Settled R) w2, exists w3,
             run clock_ms (k o) w2 = Returned tt w3 /\ isLoading w3 = false)
       /\ (forall e w2, exists w3 m,
             run clock_ms (k (Rejected e)) w2 = Returned tt w3
             /\ isLoading w3 = false
             /\ messages w3 = messages w2 ++ [m]
             /\ role m = ASSISTANT /\ type m = TEXT
             /\ content m = error_text /\ metadata m = None)
       /\ (forall e, exists appended,
             messages (world_of (run clock_ms (k (Rejected e)) w1))
             = messages world_tagline ++ appended
             /\ List.length (filter is_fault_message appended) = 1%nat
             /\ List.length (filter terminal appended) = 1%nat).
Proof.
  split; [reflexivity|].
  exact (fault_is_caught_and_reported_once clock_ms world_tagline eq_refl).
Defined.

Lemma absent_media_witness :
  rejected world_skyline = false
  /\ mode world_skyline = GenerationMode.VISUAL
  /\ exists k w1,
       run clock_ms handleSubmit world_skyline
       = Suspended
           (generateProfessionalImage (input world_skyline)
              (option_map fdata (file world_skyline)))
           k w1
       /\ forall w2, exists m,
            run clock_ms (k (Resolved None)) w2
            = Returned tt (finished w2 false m)
            /\ messages (finished w2 false m) = messages w2 ++ [m]
            /\ console (finished w2 false m) = console w2
            /\ role m = ASSISTANT /\ type m = TEXT
            /\ content m = image_failed_text /\ metadata m = None.
Proof.
  split; [reflexivity|]. split; [reflexivity|].
  exact (proj1 (absent_media_is_reported_as_text clock_ms world_skyline
                  eq_refl) eq_refl).
Defined.

Lemma metadata_invariant_witness :
  reachable clock_ms page_after_research
  /\ Forall metadata_invariant (messages (world page_after_research)).
Proof.
  split; [exact reachable_after_research|].
  exact (metadata_matches_type_in_reachable_pages clock_ms
           page_after_research reachable_after_research).
Defined.

Lemma welcome_first_witness :
  reachable clock_ms page_after_two_videos
  /\ messages (world (mounted clock_ms)) = [INITIAL_MESSAGE (clock_ms 0)]
  /\ id (INITIAL_MESSAGE (clock_ms 0)) = lit "welcome"
  /\ role (INITIAL_MESSAGE (clock_ms 0)) = ASSISTANT
  /\ type (INITIAL_MESSAGE (clock_ms 0)) = TEXT
  /\ exists rest,
       messages (world page_after_two_videos)
       = INITIAL_MESSAGE (clock_ms 0) :: rest.
Proof.
  split; [exact reachable_after_two_videos|].
  exact (welcome_message_stays_first clock_ms page_after_two_videos
           reachable_after_two_videos).
Defined.

Lemma timestamps_witness :
  (forall i j, (i <= j)%nat -> clock_ms i <= clock_ms j)
  /\ reachable clock_ms page_after_two_videos
  /\ Sorted Z.le (timestamps (messages (world page_after_two_videos))).
Proof.
  split; [exact clock_ms_monotone|].
  split; [exact reachable_after_two_videos|].
  exact (timestamps_are_nondecreasing clock_ms clock_ms_monotone
           page_after_two_videos reachable_after_two_videos).
Defined.

Lemma faults_inside_try_witness :
  geminiService.exec env_renders geminiService.ensureApiKey 0 = Resolved tt
  /\ geminiService.constructed env_renders = Resolved tt
  /\ (exists i, (i < 3)%nat
        /\ ends_polling (geminiService.polled env_renders i) = true)
  /\ exists v,
       geminiService.exec env_renders
         (geminiService.generateCinematicVideo 3 ocean) 0
       = Resolved (geminiService.Settles v).
Proof.
  split; [reflexivity|]. split; [reflexivity|].
  assert (Hends : exists i, (i < 3)%nat
            /\ ends_polling (geminiService.polled env_renders i) = true).
  { exists 2%nat. split; [repeat constructor | reflexivity]. }
  split; [exact Hends|].
  exact (proj2 (proj2 (faults_inside_try_become_null env_renders 3 ocean
                         eq_refl eq_refl))
           (or_intror Hends)).
Defined.

(* ================================================================== *)
(** ** The send button and the file reader *)
(* ================================================================== *)

(** X1.  The send button is disabled exactly when a call of
    [handleSubmit] would be ignored: with the button disabled the call
    (the Enter key still makes one) returns at once and leaves the state
    as it was, and with the button enabled it never does. *)
Theorem send_button_disabled_iff_submit_ignored (clk : nat -> Z) (w : World) :
  sendDisabled w = true <-> run clk handleSubmit w = Returned tt w.
Proof.
  assert (Hsame : sendDisabled w = rejected w) by apply orb_comm.
  rewrite Hsame. split.
  - apply handleSubmit_rejected.
  - intros Hrun. destruct (rejected w) eqn:Hrej; [reflexivity|].
    destruct (handleSubmit_accepted clk w Hrej) as (R & c & k & Hk & _).
    rewrite Hk in Hrun. discriminate Hrun.
Qed.


Lemma split_without_separator (sep : CodeUnit) (s : str) :
  ~ In sep s -> split sep s = [s].
Proof.
  induction s as [|c s IH]; simpl; intros H; [reflexivity|].
  destruct (N.eqb_spec c sep) as [->|Hc]; [exfalso; apply H; now left|].
  rewrite IH; [reflexivity|]. intros Hin. apply H. now right.
Qed.

Lemma split_at_first_separator (sep : CodeUnit) (a b : str) :
  ~ In sep a -> split sep (a ++ sep :: b) = a :: split sep b.
Proof.
  induction a as [|c a IH]; simpl; intros H.
  - now rewrite N.eqb_refl.
  - destruct (N.eqb_spec c sep) as [->|Hc]; [exfalso; apply H; now left|].
    rewrite IH; [reflexivity|]. intros Hin. apply H. now right.
Qed.



(** X2.  The file reader callback strips the header of a data URL: when
    the string read is a header without comma, a comma and a payload
    without comma (as base64 is), the attachment stored carries the name
    and type of the picked file and exactly the payload as its data. *)
Theorem onloadend_strips_data_url_header
  (f : PickedFile) (header payload : str) :
  ~ In COMMA header -> ~ In COMMA payload ->
  onloadend f (header ++ COMMA :: payload)
  = {| stored_name := picked_name f; stored_data := Some payload;
       stored_mime := picked_type f |}.
Proof.
  intros Hh Hp. unfold onloadend, base64Data.
  rewrite (split_at_first_separator COMMA header payload Hh).
  now rewrite (split_without_separator COMMA payload Hp).
Qed.


(* ================================================================== *)
(** ** Where the messages of a reachable transcript come from *)
(* ================================================================== *)

Section Origin.

Variable clk : nat -> Z.

Lemma handleSubmit_origin (w : World) :
  rejected w = false ->
  exists (R : Type) (c : Capability R) k,
    run clk handleSubmit w = Suspended c k (dispatched clk w)
    /\ resumes clk (origin clk) (is_video (mode w)) k.
Proof.
  intros H. destruct (mode w) eqn:Hm.
  - destruct (handleSubmit_copywriting clk w H Hm) as (k & Hk & Hf & Hr).
    do 2 eexists. exists k. split; [exact Hk|]. split; [exact Hf|].
    intros r w'. eexists. split; [|apply Hr]. apply from_text.
  - destruct (handleSubmit_research clk w H Hm) as (k & Hk & Hf & Hr).
    do 2 eexists. exists k. split; [exact Hk|]. split; [exact Hf|].
    intros r w'. eexists. split; [|apply Hr]. apply from_research.
  - destruct (handleSubmit_visual clk w H Hm) as (k & Hk & Hf & Hr).
    do 2 eexists. exists k. split; [exact Hk|]. split; [exact Hf|].
    intros r w'. eexists. split; [|apply Hr].
    destruct r as [[|u0 u]|]; cbn [truthy_opt truthy];
      try apply from_text.
    now apply from_image.
  - destruct (handleSubmit_video clk w H Hm) as (k & Hk & Hf & Hr).
    do 2 eexists. exists k. split; [exact Hk|]. split; [exact Hf|].
    intros r w'. eexists. split; [|apply Hr].
    destruct r as [[|u0 u]|]; cbn [truthy_opt truthy];
      try apply from_text.
    now apply from_video.
Qed.

Lemma origin_inv_step (s s' : Page) :
  origin_inv clk s -> step clk s s' -> origin_inv clk s'.
Proof.
  intros (Hall & Hpend) Hstep.
  destruct Hstep as [s ev | s | s before after R c k outcome Hin].
  - unfold origin_inv. cbn [world inflight].
    destruct (ui_transcript clk ev (world s)) as (-> & _ & _). now split.
  - destruct (rejected (world s)) eqn:Hrej.
    + rewrite (handleSubmit_rejected clk _ Hrej). cbn [absorb]. now split.
    + destruct (handleSubmit_origin _ Hrej) as (R & c & k & Hk & Hres).
      rewrite Hk. unfold origin_inv. cbn [absorb world inflight].
      cbn [dispatched messages]. split.
      * assert (Hsent : Forall (origin clk)
                  (messages (world s) ++ [user_message clk (world s)])).
        { apply Forall_app. split; [exact Hall|].
          apply Forall_one. apply from_user. }
        destruct (is_video (mode (world s))); [|exact Hsent].
        apply Forall_app. split; [exact Hsent|].
        apply Forall_one. apply from_placeholder.
      * apply Forall_app. split; [exact Hpend|].
        apply Forall_one. now exists (is_video (mode (world s))).
  - rewrite Hin in Hpend. apply Forall_app in Hpend as [Hb Hrest].
    apply Forall_cons_iff in Hrest as [[video Hp] Ha].
    cbn [pending_resumes] in Hp. destruct Hp as [Hf Hr].
    assert (Hothers : Forall (fun p => exists video,
              pending_resumes clk (origin clk) video p)
              (before ++ after)) by (apply Forall_app; now split).
    destruct outcome as [r|e].
    + destruct (Hr r (world s)) as (m & Hm & Hrun). rewrite Hrun.
      unfold origin_inv. cbn [absorb world inflight finished messages].
      split; [|exact Hothers].
      apply Forall_app. split; [|now apply Forall_one].
      destruct video; [now apply Forall_kept | exact Hall].
    + rewrite Hf. unfold origin_inv.
      cbn [absorb world inflight faulted messages].
      split; [|exact Hothers].
      apply Forall_app. split; [exact Hall|].
      apply Forall_one. apply from_catch.
Qed.

Lemma reachable_origin (s : Page) :
  reachable clk s -> Forall (origin clk) (messages (world s)).
Proof.
  intros Hs. enough (H : origin_inv clk s) by apply H.
  revert s Hs. apply invariant_reachable; [|apply origin_inv_step].
  split; [|constructor]. apply Forall_one. apply from_welcome.
Qed.

Lemma eqb_false (a b : str) : Js.eqb a b = false -> a <> b.
Proof.
  intros H Heq. apply eqb_eq in Heq. congruence.
Qed.

Lemma origin_thinking (m : Message) :
  origin clk m ->
  MessageBubble.thinkingBadge (MessageBubble.MessageBubble m)
  = Js.eqb (id m) temp_video.
Proof.
  intros [ | w | t | w | w c | w c found | w c url Hu | w c url Hu];
    cbn; try reflexivity;
    symmetry; apply Number_toString_not_temp.
Qed.

(** X4.  In every reachable state of the page the bubble of a message
    shows the "Thinking..." badge exactly when the message carries the
    reserved id [temp-video], the id the filter of [handleSubmit]
    removes. *)
Theorem thinking_badge_marks_the_reserved_id (s : Page) :
  reachable clk s ->
  Forall (fun m =>
            MessageBubble.thinkingBadge (MessageBubble.MessageBubble m)
            = Js.eqb (id m) temp_video)
    (messages (world s)).
Proof.
  intros Hs. pose proof (reachable_origin s Hs) as Hall.
  revert Hall. apply Forall_impl. apply origin_thinking.
Qed.

Lemma origin_rendered (m : Message) :
  origin clk m ->
  match type m with
  | IMAGE =>
      exists url,
        MessageBubble.metadata_imageUrl m = Some url
        /\ truthy url = true
        /\ MessageBubble.renderContent m
           = MessageBubble.ImageView (content m) url
  | VIDEO =>
      exists url,
        MessageBubble.metadata_videoUrl m = Some url
        /\ truthy url = true
        /\ MessageBubble.renderContent m
           = MessageBubble.VideoView (content m) url
  | RESEARCH =>
      exists found,
        MessageBubble.metadata_sources m = Some found
        /\ MessageBubble.renderContent m
           = MessageBubble.TextView (content m)
               match found with
               | [] => None
               | _ :: _ => Some (links_of found)
               end
  | TEXT =>
      MessageBubble.renderContent m = MessageBubble.TextView (content m) None
  end.
Proof.
  intros [ | w | t | w | w c | w c found | w c url Hu | w c url Hu];
    cbn [type set_metadata set_content set_type result_base
         INITIAL_MESSAGE user_message placeholder error_message];
    try reflexivity.
  - exists found. split; [reflexivity|]. now destruct found.
  - exists url. split; [reflexivity|]. split; [exact Hu|].
    unfold MessageBubble.renderContent. cbn. now rewrite Hu.
  - exists url. split; [reflexivity|]. split; [exact Hu|].
    unfold MessageBubble.renderContent. cbn. now rewrite Hu.
Qed.

(** X5.  In every reachable state of the page [renderContent] shows each
    message by its type: an IMAGE message as the image view of its
    non-empty [imageUrl], a VIDEO message as the video view of its
    non-empty [videoUrl] (the fall-through to the text view for a missing
    URL never happens), a RESEARCH message as text with the sources
    section when the list of sources is not empty, and a TEXT message as
    text without sources. *)
Theorem messages_render_by_their_type (s : Page) :
  reachable clk s ->
  Forall (fun m =>
            match type m with
            | IMAGE =>
                exists url,
                  MessageBubble.metadata_imageUrl m = Some url
                  /\ truthy url = true
                  /\ MessageBubble.renderContent m
                     = MessageBubble.ImageView (content m) url
            | VIDEO =>
                exists url,
                  MessageBubble.metadata_videoUrl m = Some url
                  /\ truthy url = true
                  /\ MessageBubble.renderContent m
                     = MessageBubble.VideoView (content m) url
            | RESEARCH =>
                exists found,
                  MessageBubble.metadata_sources m = Some found
                  /\ MessageBubble.renderContent m
                     = MessageBubble.TextView (content m)
                         match found with
                         | [] => None
                         | _ :: _ => Some (links_of found)
                         end
            | TEXT =>
                MessageBubble.renderContent m
                = MessageBubble.TextView (content m) None
            end)
    (messages (world s)).
Proof.
  intros Hs. pose proof (reachable_origin s Hs) as Hall.
  revert Hall. apply Forall_impl. apply origin_rendered.
Qed.



End Origin.

(* ================================================================== *)
(** ** The busy gate and the growth of the transcript *)
(* ================================================================== *)

Section Gate.

Variable clk : nat -> Z.

Lemma flight_inv_step (s s' : Page) :
  flight_inv clk s -> step clk s s' -> flight_inv clk s'.
Proof.
  intros Hinv Hstep.
  destruct Hstep as [s ev | s | s before after R c k outcome Hin].
  - unfold flight_inv in *. cbn [world inflight].
    destruct (ui_transcript clk ev (world s)) as (_ & _ & ->). exact Hinv.
  - destruct (rejected (world s)) eqn:Hrej.
    + rewrite (handleSubmit_rejected clk _ Hrej). exact Hinv.
    + pose proof (rejected_false_idle _ Hrej) as Hidle.
      assert (Hnone : inflight s = []).
      { unfold flight_inv in Hinv.
        destruct (inflight s) as [|p [|q l]]; [reflexivity| |contradiction].
        destruct Hinv as [Hbusy _]. congruence. }
      destruct (handleSubmit_accepted clk _ Hrej) as (R & c & k & Hk & Hres).
      rewrite Hk, Hnone. unfold flight_inv. cbn [absorb world inflight app].
      split; [reflexivity|]. exists (is_video (mode (world s))).
      cbn [pending_resumes]. revert Hres. now apply resumes_weaken.
  - unfold flight_inv in Hinv. rewrite Hin in Hinv.
    assert (Hone : before = [] /\ after = []).
    { destruct before as [|b before]; cbn [app] in Hinv.
      - destruct after; [now split | contradiction].
      - destruct before; cbn [app] in Hinv; contradiction. }
    destruct Hone as [-> ->]. cbn [app] in Hinv |- *.
    destruct Hinv as (_ & video & Hf & Hr).
    destruct outcome as [r|e].
    + destruct (Hr r (world s)) as (m & _ & Hrun). now rewrite Hrun.
    + now rewrite Hf.
Qed.

Lemma reachable_flight (s : Page) : reachable clk s -> flight_inv clk s.
Proof.
  apply invariant_reachable; [reflexivity | apply flight_inv_step].
Qed.

(** X7.  In every reachable state of the page at most one call of
    [handleSubmit] is in flight, and the busy flag [isLoading] is set
    exactly while one is: a submission is accepted only when none is
    pending, and every settlement, result or fault, clears the flag. *)
Theorem busy_flag_tracks_the_call_in_flight (s : Page) :
  reachable clk s ->
  (List.length (inflight s) <= 1)%nat
  /\ (isLoading (world s) = true <-> inflight s <> []).
Proof.
  intros Hs. pose proof (reachable_flight s Hs) as H.
  unfold flight_inv in H. destruct (inflight s) as [|p [|q l]].
  - split; [cbn; lia|]. rewrite H. split; [discriminate | now intros []].
  - destruct H as [-> _]. split; [cbn; lia|]. split; [discriminate|reflexivity].
  - contradiction.
Qed.

Lemma filter_idempotent {A : Type} (f : A -> bool) (l : list A) :
  filter f (filter f l) = filter f l.
Proof.
  induction l as [|x l IH]; simpl; [reflexivity|].
  destruct (f x) eqn:Hx; simpl; [now rewrite Hx, IH | exact IH].
Qed.

(** X8.  Apart from placeholders the transcript is append-only: across
    any step from a reachable state of the page (a UI event, a
    submission, a settlement with any outcome) the messages whose id is
    not [temp-video] stay, in their order, and new ones come after
    them. *)
Theorem transcript_is_append_only_but_for_placeholders (s s' : Page) :
  reachable clk s -> step clk s s' ->
  exists added,
    filter not_temp (messages (world s'))
    = filter not_temp (messages (world s)) ++ added.
Proof.
  intros Hs Hstep. destruct (reachable_shape clk s Hs) as (_ & _ & Hpend).
  destruct Hstep as [s ev | s | s before after R c k outcome Hin].
  - exists []. cbn [world]. rewrite app_nil_r.
    now destruct (ui_transcript clk ev (world s)) as (-> & _ & _).
  - destruct (rejected (world s)) eqn:Hrej.
    + rewrite (handleSubmit_rejected clk _ Hrej). exists [].
      now rewrite app_nil_r.
    + destruct (handleSubmit_accepted clk _ Hrej) as (R & c & k & Hk & _).
      rewrite Hk. cbn [absorb world dispatched messages].
      destruct (is_video (mode (world s))); rewrite !filter_app;
        eexists; rewrite <- ?app_assoc; reflexivity.
  - rewrite Hin in Hpend. apply Forall_app in Hpend as [_ Hrest].
    apply Forall_cons_iff in Hrest as [[video Hp] _].
    cbn [pending_resumes] in Hp. destruct Hp as [Hf Hr].
    destruct outcome as [r|e].
    + destruct (Hr r (world s)) as (m & _ & Hrun). rewrite Hrun.
      cbn [absorb world finished messages]. rewrite filter_app.
      destruct video; [rewrite filter_idempotent|]; eexists; reflexivity.
    + rewrite Hf. cbn [absorb world faulted messages]. rewrite filter_app.
      eexists; reflexivity.
Qed.

End Gate.

(* ================================================================== *)
(** ** The [generateContent] calls *)
(* ================================================================== *)

Section ContentCalls.

Import contentService.

Variable env : Env.

Lemma exec_after_new_client {A : Type}
  (f : geminiService.GoogleGenAI -> Async A) :
  exec env (bind createAI f)
  = match constructed env with
    | Resolved _ => exec env (f (geminiService.ai_with_key (API_KEY env)))
    | Rejected e => Rejected e
    end.
Proof.
  unfold createAI. cbn. destruct (constructed env); reflexivity.
Qed.

Lemma text_or_truthy (response : Response) (fallback : str) :
  truthy fallback = true -> truthy (text_or response fallback) = true.
Proof.
  intros Hf. unfold text_or.
  destruct (response_text response) as [t|]; [|exact Hf].
  destruct (truthy t) eqn:Ht; [exact Ht | exact Hf].
Qed.

(** X9.  [generateStrategy] either resolves with a text that is not
    empty (the text of the response, or "No content generated." when the
    response has none), or rejects with exactly the error the client
    constructor or the model call raised: it catches nothing. *)
Theorem generateStrategy_text_or_error
  (prompt contextData : str) (attachments : list MediaAttachment) :
  match exec env (generateStrategy prompt contextData attachments) with
  | Resolved r =>
      truthy (strategy_text r) = true
      /\ exists request response,
           respond env request = Resolved response
           /\ strategy_text r
              = text_or response (lit "No content generated.")
  | Rejected e =>
      constructed env = Rejected e
      \/ exists request, respond env request = Rejected e
  end.
Proof.
  unfold generateStrategy. rewrite exec_after_new_client.
  destruct (constructed env) as [[]|e]; [|now left].
  cbn [bind await exec answer].
  match goal with
  | |- context [respond env ?req] =>
      destruct (respond env req) as [response|e] eqn:Hresp
  end; cbn.
  - split; [now apply text_or_truthy|]. eauto.
  - right. eauto.
Qed.

Lemma web_sources_counted (chunks : list GroundingChunk) :
  List.length (flat_map web_source chunks)
  = List.length (filter (fun c => is_object (web c)) chunks).
Proof.
  induction chunks as [|c chunks IH]; simpl; [reflexivity|].
  unfold web_source at 1. destruct (web c); simpl; now rewrite IH.
Qed.

(** X10.  [conductResearch] either rejects with the error of the client
    constructor or of the model call, or resolves with a text that is not
    empty and with one source per grounding chunk of the first candidate
    that has a [web] entry; chunks without one are dropped, and a
    response without grounding chunks gives no sources. *)
Theorem conductResearch_text_and_web_sources (query : str) :
  match exec env (conductResearch query) with
  | Resolved r =>
      truthy (research r) = true
      /\ exists request response,
           respond env request = Resolved response
           /\ match chunks_of response with
              | Some chunks =>
                  List.length (found r)
                  = List.length (filter (fun c => is_object (web c)) chunks)
              | None => found r = []
              end
  | Rejected e =>
      constructed env = Rejected e
      \/ exists request, respond env request = Rejected e
  end.
Proof.
  unfold conductResearch. rewrite exec_after_new_client.
  destruct (constructed env) as [[]|e]; [|now left].
  cbn [bind await exec answer].
  match goal with
  | |- context [respond env ?req] =>
      destruct (respond env req) as [response|e] eqn:Hresp
  end; cbn.
  - split; [now apply text_or_truthy|].
    eexists _, response. split; [exact Hresp|].
    destruct (chunks_of response); [apply web_sources_counted | reflexivity].
  - right. eauto.
Qed.

Lemma first_image_none (ps : list Part) :
  first_image ps = None <-> Forall (fun p => inlineData p = None) ps.
Proof.
  induction ps as [|p ps IH]; simpl.
  - split; [constructor | reflexivity].
  - destruct (inlineData p) eqn:Hp.
    + split; [discriminate|]. intros H.
      apply Forall_cons_iff in H as [H _]. congruence.
    + rewrite IH. split; [now constructor|].
      intros H. now apply Forall_cons_iff in H.
Qed.

Lemma first_image_found (ps : list Part) (url : str) :
  first_image ps = Some url ->
  exists before part inline after,
    ps = before ++ part :: after
    /\ Forall (fun p => inlineData p = None) before
    /\ inlineData part = Some inline
    /\ url = lit "data:image/png;base64,"
             ++ geminiService.String_of (inline_data inline).
Proof.
  induction ps as [|p ps IH]; simpl; [discriminate|].
  destruct (inlineData p) as [inline|] eqn:Hp.
  - intros [= <-]. exists [], p, inline, ps. now repeat split.
  - intros H. destruct (IH H) as (before & part & inline & after
                                  & -> & Hb & Hpart & Hurl).
    exists (p :: before), part, inline, after. repeat split; auto.
Qed.

(** X11.  [generateProfessionalImage] either rejects with the error of
    the client constructor or of the model call, or resolves with null
    exactly when no part of the first candidate has inline data, and
    otherwise with a non-empty data URL: the prefix
    "data:image/png;base64," followed by the data of the first part that
    has inline data. *)
Theorem generateProfessionalImage_first_inline_part
  (prompt : str) (refImage : option str) :
  match exec env (generateProfessionalImage prompt refImage) with
  | Resolved r =>
      exists request response,
        respond env request = Resolved response
        /\ match r with
           | None => Forall (fun p => inlineData p = None) (parts_of response)
           | Some url =>
               truthy url = true
               /\ exists before part inline after,
                    parts_of response = before ++ part :: after
                    /\ Forall (fun p => inlineData p = None) before
                    /\ inlineData part = Some inline
                    /\ url = lit "data:image/png;base64,"
                             ++ geminiService.String_of (inline_data inline)
           end
  | Rejected e =>
      constructed env = Rejected e
      \/ exists request, respond env request = Rejected e
  end.
Proof.
  unfold generateProfessionalImage. rewrite exec_after_new_client.
  destruct (constructed env) as [[]|e]; [|now left].
  cbn [bind await exec answer].
  match goal with
  | |- context [respond env ?req] =>
      destruct (respond env req) as [response|e] eqn:Hresp
  end; cbn [exec bind]; [|right; eauto].
  eexists _, response. split; [exact Hresp|].
  destruct (first_image (parts_of response)) as [url|] eqn:Hfirst.
  - destruct (first_image_found _ _ Hfirst)
      as (before & part & inline & after & Hps & Hb & Hpart & Hurl).
    split; [now rewrite Hurl|]. now exists before, part, inline, after.
  - now apply first_image_none.
Qed.

(** What a resolved image call returns is null or the prefix followed by
    some data. *)
Lemma generateProfessionalImage_first_inline_part_aux
  (prompt : str) (refImage : option str) :
  match exec env (generateProfessionalImage prompt refImage) with
  | Resolved (Some url) => exists d, url = lit "data:image/png;base64," ++ d
  | _ => True
  end.
Proof.
  unfold generateProfessionalImage. rewrite exec_after_new_client.
  destruct (constructed env) as [[]|e]; [|exact I].
  cbn [bind await exec answer].
  match goal with
  | |- context [respond env ?req] =>
      destruct (respond env req) as [response|e] eqn:Hresp
  end; cbn [exec bind]; [|exact I].
  destruct (first_image (parts_of response)) as [url|] eqn:Hfirst; [|exact I].
  destruct (first_image_found _ _ Hfirst)
    as (before & part & inline & after & _ & _ & _ & Hurl).
  eauto.
Qed.

Lemma data_url_header_without_comma :
  ~ In COMMA (lit "data:image/png;base64").
Proof.
  intros H. apply (in_map N.to_nat) in H. vm_compute in H.
  repeat (destruct H as [H|H]; [discriminate H|]). exact H.
Qed.

(** X12.  The data URL of a generated image has the form the file reader
    callback expects: when [generateProfessionalImage] resolves with a
    URL, it is the prefix followed by some data, and if that data holds
    no comma (base64 holds none) [onloadend] applied to the URL stores
    exactly that data. *)
Theorem generated_image_reads_back_as_its_data
  (prompt : str) (refImage : option str) (url : str) :
  exec env (generateProfessionalImage prompt refImage)
  = Resolved (Some url) ->
  exists d,
    url = lit "data:image/png;base64," ++ d
    /\ (~ In COMMA d ->
        forall f, onloadend f url
                  = {| stored_name := picked_name f; stored_data := Some d;
                       stored_mime := picked_type f |}).
Proof.
  intros Hexec.
  pose proof (generateProfessionalImage_first_inline_part_aux prompt refImage)
    as Haux.
  rewrite Hexec in Haux.
  destruct Haux as (d & Hurl). exists d. split; [exact Hurl|].
  intros Hd f. rewrite Hurl. unfold onloadend, base64Data.
  change (lit "data:image/png;base64," ++ d)
    with (lit "data:image/png;base64" ++ COMMA :: d).
  rewrite (split_at_first_separator COMMA _ d data_url_header_without_comma).
  now rewrite (split_without_separator COMMA d Hd).
Qed.

End ContentCalls.

(* ================================================================== *)
(** ** More on the video call *)
(* ================================================================== *)

Section VideoCallMore.

Import geminiService.

Variable env : Env.

(** X13.  A failure before the [try] block of [generateCinematicVideo]
    rejects the call, whatever the number of poll rounds: the rejection
    of the key check ([hasSelectedApiKey] or [openSelectKey]) and the
    error of the client constructor reach the caller unchanged. *)
Theorem key_step_failures_reject_the_video_call
  (fuel : nat) (prompt : str) (e : Error) :
  exec env ensureApiKey 0 = Rejected e
  \/ (exec env ensureApiKey 0 = Resolved tt /\ constructed env = Rejected e) ->
  exec env (generateCinematicVideo fuel prompt) 0 = Rejected e.
Proof.
  unfold generateCinematicVideo. rewrite exec_after_ensureApiKey.
  intros [Hkey | [Hkey Hai]]; rewrite Hkey; [reflexivity|].
  now rewrite exec_after_createAI, Hai.
Qed.

Lemma video_call_resolves (fuel : nat) (prompt : str) :
  exec env ensureApiKey 0 = Resolved tt ->
  constructed env = Resolved tt ->
  exists r, exec env (generateCinematicVideo fuel prompt) 0 = Resolved r.
Proof.
  intros Hkey Hai. unfold generateCinematicVideo.
  rewrite exec_after_ensureApiKey, Hkey, exec_after_createAI, Hai.
  rewrite exec_try_catch.
  destruct (exec env (render_video _ _ _) 0); now eexists.
Qed.

End VideoCallMore.

(* ================================================================== *)
(** ** The dashboard on top of the service *)
(* ================================================================== *)

Section Wired.

Variable clk : nat -> Z.

(** X15.  With the service behind the dashboard, a fault inside the video
    call never shows as the generic error: when the key check and the
    client constructor succeed and the call has settled, the accepted
    VIDEO request ends with a VIDEO message or with the text "Video
    generation failed or was cancelled.", never with the message of the
    catch block. *)
Theorem video_request_never_shows_the_generic_error
  (w : World) (env : geminiService.Env) (fuel : nat)
  (o : Settled (option str)) :
  rejected w = false -> mode w = GenerationMode.VIDEO ->
  geminiService.exec env geminiService.ensureApiKey 0 = Resolved tt ->
  geminiService.constructed env = Resolved tt ->
  video_outcome
    (geminiService.exec env
       (geminiService.generateCinematicVideo fuel (input w)) 0) = Some o ->
  exists k,
    run clk handleSubmit w
    = Suspended (generateCinematicVideo (input w)) k (dispatched clk w)
    /\ forall w2, exists m,
         run clk (k o) w2 = Returned tt (finished w2 true m)
         /\ is_fault_message m = false
         /\ (type m = VIDEO
             \/ (type m = TEXT /\ content m = video_failed_text)).
Proof.
  intros Hrej Hm Hkey Hai Ho.
  destruct (video_call_resolves env fuel (input w) Hkey Hai) as [r Hr].
  rewrite Hr in Ho. destruct r as [v|]; cbn in Ho; [|discriminate Ho].
  injection Ho as <-.
  destruct (handleSubmit_video clk w Hrej Hm) as (k & Hk & _ & Hres).
  exists k. split; [exact Hk|]. intros w2. eexists. split; [apply Hres|].
  destruct (truthy_opt v); split; try reflexivity; [now left | right].
  now split.
Qed.

Lemma strategy_resolved_text (env : contentService.Env)
  (prompt contextData : str) (attachments : list MediaAttachment)
  (r : StrategyResult) :
  contentService.exec env
    (contentService.generateStrategy prompt contextData attachments)
  = Resolved r ->
  truthy (strategy_text r) = true.
Proof.
  unfold contentService.generateStrategy.
  rewrite exec_after_new_client.
  destruct (contentService.constructed env) as [[]|e]; [|discriminate].
  cbn [bind await contentService.exec contentService.answer].
  match goal with
  | |- context [contentService.respond env ?req] =>
      destruct (contentService.respond env req) as [response|e]
  end; cbn [contentService.exec bind]; [|discriminate].
  intros [= <-]. now apply text_or_truthy.
Qed.

(** X16.  With the service behind the dashboard, an accepted COPYWRITING
    request never ends with an empty bubble: if [generateStrategy]
    resolves, the message appended is a TEXT message whose content is the
    non-empty text it resolved with; if it rejects, the catch path runs
    with that error. *)
Theorem strategy_request_never_shows_an_empty_message
  (w : World) (env : contentService.Env) :
  rejected w = false -> mode w = GenerationMode.COPYWRITING ->
  exists k atts,
    run clk handleSubmit w
    = Suspended
        (generateStrategy (input w) (contextString (context w)) atts)
        k (dispatched clk w)
    /\ forall w2,
         match contentService.exec env
                 (contentService.generateStrategy (input w)
                    (contextString (context w)) atts)
         with
         | Resolved r =>
             exists m,
               run clk (k (Resolved r)) w2
               = Returned tt (finished w2 false m)
               /\ type m = TEXT
               /\ content m = strategy_text r
               /\ truthy (content m) = true
         | Rejected e =>
             run clk (k (Rejected e)) w2 = Returned tt (faulted clk w2 e)
         end.
Proof.
  intros Hrej Hm.
  destruct (handleSubmit_copywriting clk w Hrej Hm) as (k & Hk & Hf & Hr).
  exists k. eexists. split; [exact Hk|]. intros w2.
  destruct (contentService.exec env _) as [r|e] eqn:Hexec; [|apply Hf].
  eexists. split; [apply Hr|]. repeat split.
  exact (strategy_resolved_text env _ _ _ r Hexec).
Qed.

Lemma image_resolved_truthy (env : contentService.Env)
  (prompt : str) (refImage : option str) (url : str) :
  contentService.exec env
    (contentService.generateProfessionalImage prompt refImage)
  = Resolved (Some url) ->
  truthy url = true.
Proof.
  intros Hexec.
  pose proof (generateProfessionalImage_first_inline_part_aux env
                prompt refImage) as Haux.
  rewrite Hexec in Haux. destruct Haux as (d & ->). reflexivity.
Qed.

(** X17.  With the service behind the dashboard, an accepted VISUAL
    request whose call resolves ends with an IMAGE message exactly when
    the service found an image: the message then carries the data URL as
    its [imageUrl] and renders as the image view; when the service
    resolves with null, the message is the TEXT message "Failed to
    generate image. Please try again."; when it rejects, the catch path
    runs with that error. *)
Theorem image_request_shows_the_image_or_the_failure_text
  (w : World) (env : contentService.Env) :
  rejected w = false -> mode w = GenerationMode.VISUAL ->
  exists k,
    run clk handleSubmit w
    = Suspended
        (generateProfessionalImage (input w) (option_map fdata (file w)))
        k (dispatched clk w)
    /\ forall w2,
         match contentService.exec env
                 (contentService.generateProfessionalImage (input w)
                    (option_map fdata (file w)))
         with
         | Resolved (Some url) =>
             exists m,
               run clk (k (Resolved (Some url))) w2
               = Returned tt (finished w2 false m)
               /\ type m = IMAGE
               /\ MessageBubble.renderContent m
                  = MessageBubble.ImageView (content m) url
         | Resolved None =>
             exists m,
               run clk (k (Resolved None)) w2
               = Returned tt (finished w2 false m)
               /\ type m = TEXT
               /\ content m = image_failed_text
         | Rejected e =>
             run clk (k (Rejected e)) w2 = Returned tt (faulted clk w2 e)
         end.
Proof.
  intros Hrej Hm.
  destruct (handleSubmit_visual clk w Hrej Hm) as (k & Hk & Hf & Hr).
  exists k. split; [exact Hk|]. intros w2.
  destruct (contentService.exec env _) as [[url|]|e] eqn:Hexec;
    [| |apply Hf].
  - pose proof (image_resolved_truthy env _ _ url Hexec) as Hu.
    eexists. split; [apply Hr|]. cbn [truthy_opt]. rewrite Hu.
    split; [reflexivity|].
    unfold MessageBubble.renderContent. cbn. now rewrite Hu.
  - eexists. split; [apply Hr|]. now split.
Qed.

End Wired.

(* ================================================================== *)
(** ** After a lifecycle *)
(* ================================================================== *)

Section AfterLifecycle.

Variable clk : nat -> Z.

(** X18.  An accepted submission consumes the input and the attachment:
    while its call is in flight and after it has settled, with any
    outcome, the input buffer is empty and no attachment is pending, so
    the send button is disabled until the user types or attaches
    again. *)
Theorem submission_consumes_input_and_attachment (w : World) :
  rejected w = false ->
  exists (R : Type) (c : Capability R) k w1,
    run clk handleSubmit w = Suspended c k w1
    /\ input w1 = [] /\ file w1 = None /\ sendDisabled w1 = true
    /\ forall o : Settled R,
         input (world_of (run clk (k o) w1)) = []
         /\ file (world_of (run clk (k o) w1)) = None
         /\ sendDisabled (world_of (run clk (k o) w1)) = true.
Proof.
  intros H.
  destruct (handleSubmit_accepted clk w H) as (R & c & k & Hk & Hf & Hr).
  exists R, c, k, (dispatched clk w). split; [exact Hk|].
  repeat split; try reflexivity.
  - destruct o as [r|e].
    + destruct (Hr r (dispatched clk w)) as (m & _ & ->). reflexivity.
    + now rewrite Hf.
  - destruct o as [r|e].
    + destruct (Hr r (dispatched clk w)) as (m & _ & ->). reflexivity.
    + now rewrite Hf.
  - destruct o as [r|e].
    + destruct (Hr r (dispatched clk w)) as (m & _ & ->). reflexivity.
    + now rewrite Hf.
Qed.

(** X19.  A VIDEO request whose call resolves leaves no message with the
    placeholder id in the transcript: the filter removes the placeholder
    of this request and any placeholder an earlier, rejected request
    left behind. *)
Theorem resolved_video_call_clears_every_placeholder (w : World) :
  rejected w = false -> mode w = GenerationMode.VIDEO ->
  exists k,
    run clk handleSubmit w
    = Suspended (generateCinematicVideo (input w)) k (dispatched clk w)
    /\ forall r w2,
         Forall (fun m => Js.eqb (id m) temp_video = false)
           (messages (world_of (run clk (k (Resolved r)) w2))).
Proof.
  intros H Hm.
  destruct (handleSubmit_video clk w H Hm) as (k & Hk & _ & Hr).
  exists k. split; [exact Hk|]. intros r w2. rewrite Hr.
  cbn [world_of finished messages]. apply Forall_app. split.
  - apply Forall_forall. intros m Hin. apply filter_In in Hin as [_ Hnt].
    unfold not_temp in Hnt. now apply negb_true_iff in Hnt.
  - apply Forall_one.
    destruct (truthy_opt r); cbn; apply Number_toString_not_temp.
Qed.

End AfterLifecycle.

(** X20.  The key check of the video call can fail only through the
    [window.aistudio] bridge: [ensureApiKey] rejects exactly when the
    bridge is present and either [hasSelectedApiKey] rejects, or it
    reports no key and [openSelectKey] rejects; without the bridge, or
    with a key already selected, it resolves. *)
Theorem ensureApiKey_fails_only_through_the_bridge
  (env : geminiService.Env) (n : nat) (e : Error) :
  geminiService.exec env geminiService.ensureApiKey n = Rejected e
  <-> geminiService.aistudio env = true
      /\ (geminiService.hasKey env = Rejected e
          \/ (geminiService.hasKey env = Resolved false
              /\ geminiService.selectKey env = Rejected e)).
Proof.
  unfold geminiService.ensureApiKey. cbn.
  destruct (geminiService.aistudio env); cbn.
  - destruct (geminiService.hasKey env) as [[|]|e'] eqn:Hk; cbn.
    + split; [discriminate|]. intros [_ [H|[H _]]]; discriminate H.
    + destruct (geminiService.selectKey env) as [[]|e''] eqn:Hs; cbn.
      * split; [discriminate|]. intros [_ [H|[_ H]]]; discriminate H.
      * split.
        -- intros [= ->]. split; [reflexivity|]. right. now split.
        -- intros [_ [H|[_ H]]]; [discriminate H | now injection H as ->].
    + split.
      * intros [= ->]. split; [reflexivity|]. now left.
      * intros [_ [H|[H _]]]; [now injection H as -> | discriminate H].
  - split; [discriminate|]. intros [H _]. discriminate H.
Qed.

(* ================================================================== *)
(** ** The further properties at sample inputs *)
(* ================================================================== *)

Lemma logo_payload_without_comma : ~ In COMMA logo_payload.
Proof.
  intros H. apply (in_map N.to_nat) in H. vm_compute in H.
  repeat (destruct H as [H|H]; [discriminate H|]). exact H.
Qed.

Lemma onloadend_strips_witness :
  ~ In COMMA (lit "data:image/png;base64")
  /\ ~ In COMMA logo_payload
  /\ onloadend picked_logo
       (lit "data:image/png;base64" ++ COMMA :: logo_payload)
     = {| stored_name := lit "logo.png"; stored_data := Some logo_payload;
          stored_mime := lit "image/png" |}.
Proof.
  split; [exact data_url_header_without_comma|].
  split; [exact logo_payload_without_comma|].
  exact (onloadend_strips_data_url_header picked_logo _ _
           data_url_header_without_comma logo_payload_without_comma).
Defined.

Lemma thinking_badge_witness :
  reachable clock_ms page_video_in_flight
  /\ Forall (fun m =>
               MessageBubble.thinkingBadge (MessageBubble.MessageBubble m)
               = Js.eqb (id m) temp_video)
       (messages (world page_video_in_flight)).
Proof.
  assert (H : reachable clock_ms page_video_in_flight)
    by apply reachable_submit, reachable_typed.
  split; [exact H|].
  exact (thinking_badge_marks_the_reserved_id clock_ms _ H).
Defined.

Lemma messages_render_witness :
  reachable clock_ms page_after_research
  /\ Forall (fun m =>
               match type m with
               | IMAGE =>
                   exists url,
                     MessageBubble.metadata_imageUrl m = Some url
                     /\ truthy url = true
                     /\ MessageBubble.renderContent m
                        = MessageBubble.ImageView (content m) url
               | VIDEO =>
                   exists url,
                     MessageBubble.metadata_videoUrl m = Some url
                     /\ truthy url = true
                     /\ MessageBubble.renderContent m
                        = MessageBubble.VideoView (content m) url
               | RESEARCH =>
                   exists found,
                     MessageBubble.metadata_sources m = Some found
                     /\ MessageBubble.renderContent m
                        = MessageBubble.TextView (content m)
                            match found with
                            | [] => None
                            | _ :: _ => Some (links_of found)
                            end
               | TEXT =>
                   MessageBubble.renderContent m
                   = MessageBubble.TextView (content m) None
               end)
       (messages (world page_after_research)).
Proof.
  split; [exact reachable_after_research|].
  exact (messages_render_by_their_type clock_ms _ reachable_after_research).
Defined.


Lemma busy_flag_witness :
  reachable clock_ms page_video_in_flight
  /\ (List.length (inflight page_video_in_flight) <= 1)%nat
  /\ (isLoading (world page_video_in_flight) = true
      <-> inflight page_video_in_flight <> []).
Proof.
  assert (H : reachable clock_ms page_video_in_flight)
    by apply reachable_submit, reachable_typed.
  split; [exact H|].
  exact (busy_flag_tracks_the_call_in_flight clock_ms _ H).
Defined.

Lemma append_only_witness :
  reachable clock_ms page_video_in_flight
  /\ step clock_ms page_video_in_flight page_after_video_fault
  /\ exists added,
       filter not_temp (messages (world page_after_video_fault))
       = filter not_temp (messages (world page_video_in_flight)) ++ added.
Proof.
  assert (H : reachable clock_ms page_video_in_flight)
    by apply reachable_submit, reachable_typed.
  assert (Hstep : step clock_ms page_video_in_flight page_after_video_fault).
  { unfold page_after_video_fault, page_settle.
    destruct (inflight page_video_in_flight) as [|[R c k] others] eqn:Hin.
    - vm_compute in Hin. discriminate Hin.
    - exact (step_settle clock_ms _ [] others c k
               (rejects key_dialog_error R c) Hin). }
  split; [exact H|]. split; [exact Hstep|].
  exact (transcript_is_append_only_but_for_placeholders clock_ms _ _ H Hstep).
Defined.

Lemma image_reads_back_witness :
  contentService.exec env_answers
    (contentService.generateProfessionalImage (lit "neon skyline") None)
  = Resolved (Some (lit "data:image/png;base64," ++ logo_payload))
  /\ exists d,
       lit "data:image/png;base64," ++ logo_payload
       = lit "data:image/png;base64," ++ d
       /\ (~ In COMMA d ->
           forall f,
             onloadend f (lit "data:image/png;base64," ++ logo_payload)
             = {| stored_name := picked_name f; stored_data := Some d;
                  stored_mime := picked_type f |}).
Proof.
  assert (H : contentService.exec env_answers
                (contentService.generateProfessionalImage
                   (lit "neon skyline") None)
              = Resolved (Some (lit "data:image/png;base64," ++ logo_payload)))
    by (vm_compute; reflexivity).
  split; [exact H|].
  exact (generated_image_reads_back_as_its_data env_answers _ _ _ H).
Defined.

Lemma key_step_failure_witness :
  (geminiService.exec env_key_dialog_fails geminiService.ensureApiKey 0
   = Rejected key_dialog_error
   \/ (geminiService.exec env_key_dialog_fails geminiService.ensureApiKey 0
       = Resolved tt
       /\ geminiService.constructed env_key_dialog_fails
          = Rejected key_dialog_error))
  /\ geminiService.exec env_key_dialog_fails
       (geminiService.generateCinematicVideo 7 ocean) 0
     = Rejected key_dialog_error.
Proof.
  assert (H : geminiService.exec env_key_dialog_fails
                geminiService.ensureApiKey 0
              = Rejected key_dialog_error
              \/ (geminiService.exec env_key_dialog_fails
                    geminiService.ensureApiKey 0 = Resolved tt
                  /\ geminiService.constructed env_key_dialog_fails
                     = Rejected key_dialog_error))
    by (left; vm_compute; reflexivity).
  split; [exact H|].
  exact (key_step_failures_reject_the_video_call env_key_dialog_fails
           7 ocean key_dialog_error H).
Defined.

Lemma video_request_witness :
  rejected (world (typed clock_ms GenerationMode.VIDEO ocean)) = false
  /\ mode (world (typed clock_ms GenerationMode.VIDEO ocean))
     = GenerationMode.VIDEO
  /\ geminiService.exec env_renders geminiService.ensureApiKey 0
     = Resolved tt
  /\ geminiService.constructed env_renders = Resolved tt
  /\ video_outcome
       (geminiService.exec env_renders
          (geminiService.generateCinematicVideo 3
             (input (world (typed clock_ms GenerationMode.VIDEO ocean)))) 0)
     = Some (Resolved (Some rendered_url))
  /\ exists k,
       run clock_ms handleSubmit
         (world (typed clock_ms GenerationMode.VIDEO ocean))
       = Suspended
           (generateCinematicVideo
              (input (world (typed clock_ms GenerationMode.VIDEO ocean))))
           k
           (dispatched clock_ms
              (world (typed clock_ms GenerationMode.VIDEO ocean)))
       /\ forall w2, exists m,
            run clock_ms (k (Resolved (Some rendered_url))) w2
            = Returned tt (finished w2 true m)
            /\ is_fault_message m = false
            /\ (type m = VIDEO
                \/ (type m = TEXT /\ content m = video_failed_text)).
Proof.
  assert (Ho : video_outcome
                 (geminiService.exec env_renders
                    (geminiService.generateCinematicVideo 3
                       (input (world
                          (typed clock_ms GenerationMode.VIDEO ocean)))) 0)
               = Some (Resolved (Some rendered_url)))
    by (vm_compute; reflexivity).
  split; [reflexivity|]. split; [reflexivity|]. split; [reflexivity|].
  split; [reflexivity|]. split; [exact Ho|].
  exact (video_request_never_shows_the_generic_error clock_ms
           (world (typed clock_ms GenerationMode.VIDEO ocean))
           env_renders 3 (Resolved (Some rendered_url))
           eq_refl eq_refl eq_refl eq_refl Ho).
Defined.

Lemma strategy_request_witness :
  rejected world_tagline = false
  /\ mode world_tagline = GenerationMode.COPYWRITING
  /\ exists k atts,
       run clock_ms handleSubmit world_tagline
       = Suspended
           (generateStrategy (input world_tagline)
              (contextString (context world_tagline)) atts)
           k (dispatched clock_ms world_tagline)
       /\ forall w2,
            match contentService.exec env_answers
                    (contentService.generateStrategy (input world_tagline)
                       (contextString (context world_tagline)) atts)
            with
            | Resolved r =>
                exists m,
                  run clock_ms (k (Resolved r)) w2
                  = Returned tt (finished w2 false m)
                  /\ type m = TEXT
                  /\ content m = strategy_text r
                  /\ truthy (content m) = true
            | Rejected e =>
                run clock_ms (k (Rejected e)) w2
                = Returned tt (faulted clock_ms w2 e)
            end.
Proof.
  split; [reflexivity|]. split; [reflexivity|].
  exact (strategy_request_never_shows_an_empty_message clock_ms
           world_tagline env_answers eq_refl eq_refl).
Defined.

Lemma image_request_witness :
  rejected world_skyline = false
  /\ mode world_skyline = GenerationMode.VISUAL
  /\ exists k,
       run clock_ms handleSubmit world_skyline
       = Suspended
           (generateProfessionalImage (input world_skyline)
              (option_map fdata (file world_skyline)))
           k (dispatched clock_ms world_skyline)
       /\ forall w2,
            match contentService.exec env_answers
                    (contentService.generateProfessionalImage
                       (input world_skyline)
                       (option_map fdata (file world_skyline)))
            with
            | Resolved (Some url) =>
                exists m,
                  run clock_ms (k (Resolved (Some url))) w2
                  = Returned tt (finished w2 false m)
                  /\ type m = IMAGE
                  /\ MessageBubble.renderContent m
                     = MessageBubble.ImageView (content m) url
            | Resolved None =>
                exists m,
                  run clock_ms (k (Resolved None)) w2
                  = Returned tt (finished w2 false m)
                  /\ type m = TEXT
                  /\ content m = image_failed_text
            | Rejected e =>
                run clock_ms (k (Rejected e)) w2
                = Returned tt (faulted clock_ms w2 e)
            end.
Proof.
  split; [reflexivity|]. split; [reflexivity|].
  exact (image_request_shows_the_image_or_the_failure_text clock_ms
           world_skyline env_answers eq_refl eq_refl).
Defined.

Lemma submission_consumes_witness :
  rejected world_skyline = false
  /\ exists (R : Type) (c : Capability R) k w1,
       run clock_ms handleSubmit world_skyline = Suspended c k w1
       /\ input w1 = [] /\ file w1 = None /\ sendDisabled w1 = true
       /\ forall o : Settled R,
            input (world_of (run clock_ms (k o) w1)) = []
            /\ file (world_of (run clock_ms (k o) w1)) = None
            /\ sendDisabled (world_of (run clock_ms (k o) w1)) = true.
Proof.
  split; [reflexivity|].
  exact (submission_consumes_input_and_attachment clock_ms world_skyline
           eq_refl).
Defined.

Lemma resolved_video_witness :
  rejected (world (page_ui clock_ms (onChange_input ocean)
                     page_after_video_fault)) = false
  /\ mode (world (page_ui clock_ms (onChange_input ocean)
                    page_after_video_fault)) = GenerationMode.VIDEO
  /\ exists k,
       run clock_ms handleSubmit
         (world (page_ui clock_ms (onChange_input ocean)
                   page_after_video_fault))
       = Suspended
           (generateCinematicVideo
              (input (world (page_ui clock_ms (onChange_input ocean)
                               page_after_video_fault))))
           k
           (dispatched clock_ms
              (world (page_ui clock_ms (onChange_input ocean)
                        page_after_video_fault)))
       /\ forall r w2,
            Forall (fun m => Js.eqb (id m) temp_video = false)
              (messages (world_of (run clock_ms (k (Resolved r)) w2))).
Proof.
  assert (Hrej : rejected (world (page_ui clock_ms (onChange_input ocean)
                                    page_after_video_fault)) = false)
    by (vm_compute; reflexivity).
  assert (Hm : mode (world (page_ui clock_ms (onChange_input ocean)
                              page_after_video_fault))
               = GenerationMode.VIDEO)
    by (vm_compute; reflexivity).
  split; [exact Hrej|]. split; [exact Hm|].
  exact (resolved_video_call_clears_every_placeholder clock_ms _ Hrej Hm).
Defined.
